(** * aoc-times.ts: leaderboard statistics and tabular rendering

    A shallow embedding of [aoc-times.ts].  JavaScript numbers that the
    script reads from the leaderboard document (timestamps, scores, star
    counts, day counts) are integers and are modelled as [Z]; the one
    division of the script, [total / count] under [Math.round], is taken
    over the rationals [Q] (the double nearest to the quotient of two such
    integers rounds as the quotient itself does).  JavaScript strings are
    sequences of UTF-16 code units.  The script starts from the leaderboard
    id and the view key that [parseArgs] resolved; they are part of the
    environment [Env] of a run, together with the answer of the network. *)

From Stdlib Require Import Ascii QArith Qround.
From stdpp Require Import base numbers list sorting gmap strings pretty.

Local Open Scope Z_scope.

(** ** JavaScript strings *)

(** A string is its sequence of UTF-16 code units, so that [length],
    [slice], [padStart] and [padEnd] count what the engine counts. *)
Definition jsstring := list N.

Definition byte_of (c : ascii) : N := N_of_ascii c.

(** Code units of a literal written in this file (UTF-8 source text). *)
Fixpoint utf16 (s : string) : jsstring :=
  match s with
  | EmptyString => []
  | String c1 r1 =>
    let b1 := byte_of c1 in
    if (b1 <? 128)%N then b1 :: utf16 r1
    else match r1 with
    | EmptyString => [b1]
    | String c2 r2 =>
      let b2 := N.land (byte_of c2) 63 in
      if (b1 <? 224)%N then (N.shiftl (N.land b1 31) 6 + b2)%N :: utf16 r2
      else match r2 with
      | EmptyString => [b1]
      | String c3 r3 =>
        let b3 := N.land (byte_of c3) 63 in
        if (b1 <? 240)%N
        then (N.shiftl (N.land b1 15) 12 + N.shiftl b2 6 + b3)%N :: utf16 r3
        else match r3 with
        | EmptyString => [b1]
        | String c4 r4 =>
          let b4 := N.land (byte_of c4) 63 in
          let cp := (N.shiftl (N.land b1 7) 18 + N.shiftl b2 12
                     + N.shiftl b3 6 + b4 - 65536)%N in
          (55296 + N.shiftr cp 10)%N :: (56320 + N.land cp 1023)%N :: utf16 r4
        end
      end
    end
  end.

Global Arguments utf16 : simpl never.

(** [Number.prototype.toString] on an integer: its decimal numeral. *)
Definition toString (n : Z) : jsstring := utf16 (pretty n).
Global Arguments toString : simpl never.

Definition SPACE : N := 32%N.

(** [s.padStart(n)] and [s.padEnd(n)] pad with spaces up to [n] units. *)
Definition padStart (n : nat) (s : jsstring) : jsstring :=
  replicate (n - length s)%nat SPACE ++ s.
Definition padEnd (n : nat) (s : jsstring) : jsstring :=
  s ++ replicate (n - length s)%nat SPACE.

(** [s.slice(0, n)]. *)
Definition slice0 (n : nat) (s : jsstring) : jsstring := take n s.

(** ** Constants *)

Definition DAY_1_UNLOCK : Z := 1764565200.
Definition SECONDS_PER_DAY : Z := 86400.

(** ** formatDuration

    [%] is the truncating remainder ([Z.rem]); [Math.floor (a / b)] for
    a positive integer [b] is the floor quotient ([Z.div]). *)
Definition formatDuration (seconds : Z) : jsstring :=
  if seconds <? 0 then utf16 "N/A"
  else
    let days := seconds / 86400 in
    let hours := Z.rem seconds 86400 / 3600 in
    let mins := Z.rem seconds 3600 / 60 in
    let secs := Z.rem seconds 60 in
    if 0 <? days then
      toString days ++ utf16 "d " ++ toString hours ++ utf16 "h "
        ++ toString mins ++ utf16 "m"
    else if 0 <? hours then
      toString hours ++ utf16 "h " ++ toString mins ++ utf16 "m "
        ++ toString secs ++ utf16 "s"
    else if 0 <? mins then
      toString mins ++ utf16 "m " ++ toString secs ++ utf16 "s"
    else
      toString secs ++ utf16 "s".

Definition getPuzzleUnlock (day : Z) : Z :=
  DAY_1_UNLOCK + (day - 1) * SECONDS_PER_DAY.

(** ** JavaScript objects

    An object read from JSON is its list of own properties in creation
    order (the order of the document), with distinct keys. *)
Abbreviation JsObject V := (list (jsstring * V)).

(** [o[k]]: the property named [k], [None] for [undefined]. *)
Fixpoint get {V} (o : JsObject V) (k : jsstring) : option V :=
  match o with
  | [] => None
  | (k', v) :: o' => if decide (k' = k) then Some v else get o' k
  end.

Definition digit_of (u : N) : option N :=
  if ((48 <=? u) && (u <=? 57))%N then Some (u - 48)%N else None.

Fixpoint parse_digits (acc : N) (s : jsstring) : option N :=
  match s with
  | [] => Some acc
  | u :: r => d ← digit_of u; parse_digits (10 * acc + d)%N r
  end.

(** A key is an array index when it is the canonical decimal numeral of
    an integer below 2^32 - 1. *)
Definition array_index (k : jsstring) : option N :=
  n ← parse_digits 0%N k;
  if decide (toString (Z.of_N n) = k ∧ (n < 2 ^ 32 - 1)%N) then Some n
  else None.

(** ** Array.prototype.sort

    The sort is stable: elements that the comparator does not separate
    keep their order.  [sort_insert x l] puts [x], which came before every
    element of [l], in front of the first element it does not follow. *)
Section Sort.
Context {A : Type} (cmp : A → A → Z).

Fixpoint sort_insert (x : A) (l : list A) : list A :=
  match l with
  | [] => [x]
  | y :: l' => if cmp x y <=? 0 then x :: l else y :: sort_insert x l'
  end.

Definition Array_sort (l : list A) : list A := foldr sort_insert [] l.
End Sort.

(** [Object.values o]: array-index keys in ascending numeric order, then
    the other keys in creation order. *)
Definition index_entries {V} (o : JsObject V) : list (N * V) :=
  omap (λ e, n ← array_index e.1; Some (n, e.2)) o.

Definition named_entries {V} (o : JsObject V) : JsObject V :=
  filter (λ e, array_index e.1 = None) o.

Definition Object_values {V} (o : JsObject V) : list V :=
  (snd <$> Array_sort (λ a b, Z.of_N a.1 - Z.of_N b.1) (index_entries o))
  ++ (snd <$> named_entries o).

(** ** The leaderboard document *)

Record StarInfo := { get_star_ts : Z }.

(** One day of [completion_day_level]: the optional parts ['1'] and ['2']. *)
Record DayLevel := { level_1 : option StarInfo; level_2 : option StarInfo }.

Abbreviation CompletionDayLevel := (JsObject DayLevel).

(** [name] is [None] for [null]; [completion_day_level] is [None] when
    the document lacks the field. *)
Record Member := {
  id : Z;
  name : option jsstring;
  stars : Z;
  local_score : Z;
  last_star_ts : Z;
  completion_day_level : option CompletionDayLevel
}.

(** [members] is [None] when the document lacks the field. *)
Record LeaderboardData := {
  event : jsstring;
  owner_id : Z;
  members : option (JsObject Member);
  num_days : Z;
  day1_ts : Z
}.

(** The comparator of the overall table. *)
Definition compare_members (a b : Member) : Z :=
  if negb (local_score b =? local_score a) then local_score b - local_score a
  else if negb (stars b =? stars a) then stars b - stars a
  else last_star_ts a - last_star_ts b.

(** ** Effects: console, network, exceptions and process exit *)

Inductive JsError := SyntaxError | TypeError | RangeError | FetchError.

(** What [console.error] was given: a text, or an error object. *)
Inductive Logged := LogText (s : jsstring) | LogError (e : JsError).

Record World := {
  stdout : list jsstring;
  stderr : list Logged;
  requests : list jsstring
}.

Inductive Completion (A : Type) :=
  | Normal (a : A)
  | Throw (e : JsError)
  | Exit (code : Z).
Arguments Normal {A} a.
Arguments Throw {A} e.
Arguments Exit {A} code.

Definition Js (A : Type) : Type := World → Completion A * World.

Global Instance Js_ret : MRet Js := λ A a w, (Normal a, w).
Global Instance Js_bind : MBind Js := λ A B f m w,
  match m w with
  | (Normal a, w') => f a w'
  | (Throw e, w') => (Throw e, w')
  | (Exit c, w') => (Exit c, w')
  end.

Definition throw {A} (e : JsError) : Js A := λ w, (Throw e, w).
Definition process_exit {A} (code : Z) : Js A := λ w, (Exit code, w).

Definition console_log (s : jsstring) : Js unit := λ w,
  (Normal tt, {| stdout := stdout w ++ [s]; stderr := stderr w;
                 requests := requests w |}).
Definition console_error (x : Logged) : Js unit := λ w,
  (Normal tt, {| stdout := stdout w; stderr := stderr w ++ [x];
                 requests := requests w |}).

(** Reading a property of [undefined] throws a [TypeError]. *)
Definition defined {A} (x : option A) : Js A :=
  match x with Some a => mret a | None => throw TypeError end.

Fixpoint js_for {A} (l : list A) (body : A → Js unit) : Js unit :=
  match l with
  | [] => mret tt
  | x :: r => body x;; js_for r body
  end.

Fixpoint js_mapM {A B} (f : A → Js B) (l : list A) : Js (list B) :=
  match l with
  | [] => mret []
  | x :: r => y ← f x; ys ← js_mapM f r; mret (y :: ys)
  end.

Fixpoint js_foldM {A S} (f : S → A → Js S) (s : S) (l : list A) : Js S :=
  match l with
  | [] => mret s
  | x :: r => s' ← f s x; js_foldM f s' r
  end.

(** The network: what [fetch] of a URL settles to. *)
Record Response := {
  ok : bool;
  status : Z;
  statusText : jsstring;
  body : option LeaderboardData    (* [None]: the body is not valid JSON *)
}.

Inductive FetchResult := Fulfilled (r : Response) | Rejected.

Record Env := {
  LEADERBOARD_ID : jsstring;
  VIEW_KEY : jsstring;
  network : jsstring → FetchResult
}.

Definition fetch (env : Env) (url : jsstring) : Js Response := λ w,
  let w' := {| stdout := stdout w; stderr := stderr w;
               requests := requests w ++ [url] |} in
  match network env url with
  | Fulfilled r => (Normal r, w')
  | Rejected => (Throw FetchError, w')
  end.

Definition response_json (r : Response) : Js LeaderboardData :=
  match body r with Some d => mret d | None => throw SyntaxError end.

(** ** Per-member statistics *)

Record DayTimes := { part1 : option Z; part2 : option Z }.

Module Stats.
Record t := {
  name : jsstring;
  score : Z;
  stars : Z;
  times : gmap Z DayTimes
}.
End Stats.
Abbreviation MemberStats := Stats.t.

(** [x ? ... : ...] on an optional number: [undefined], [null] and [0]
    are falsy. *)
Definition truthy (x : option Z) : bool :=
  match x with
  | Some n => negb (n =? 0)
  | None => false
  end.

(** [partTs ? partTs - unlock : null]. *)
Definition offset (partTs : option Z) (unlock : Z) : option Z :=
  if truthy partTs then (λ ts, ts - unlock) <$> partTs else None.

(** [member.name || `Anonymous #${member.id}`]. *)
Definition display_name (member : Member) : jsstring :=
  match name member with
  | Some (u :: n) => u :: n
  | _ => utf16 "Anonymous #" ++ toString (id member)
  end.

(** The days of [for (let day = 1; day <= num_days; day++)]. *)
Definition days_of (num_days : Z) : list Z := seqZ 1 num_days.

Definition record_day (member : Member) (times : gmap Z DayTimes) (day : Z)
    : Js (gmap Z DayTimes) :=
  let unlock := getPuzzleUnlock day in
  cdl ← defined (completion_day_level member);
  match get cdl (toString day) with
  | Some dayData =>
    let part1Ts := get_star_ts <$> level_1 dayData in
    let part2Ts := get_star_ts <$> level_2 dayData in
    mret (<[day := {| part1 := offset part1Ts unlock;
                      part2 := offset part2Ts unlock |}]> times)
  | None => mret times
  end.

Definition member_stats (num_days : Z) (member : Member) : Js MemberStats :=
  let name := display_name member in
  times ← js_foldM (record_day member) ∅ (days_of num_days);
  mret {| Stats.name := name; Stats.score := local_score member;
          Stats.stars := stars member; Stats.times := times |}.

(** ** Day averages *)

(** [Math.round x]: the integer [n] with [n - 1/2 <= x < n + 1/2]. *)
Definition Math_round (x : Q) : Z := Qfloor (x + (1 # 2)).

Record Totals := { p1Total : Z; p1Count : Z; p2Total : Z; p2Count : Z }.

Definition add_member (day : Z) (s : Totals) (m : MemberStats) : Totals :=
  let t := Stats.times m !! day in
  let s :=
    match t ≫= part1 with
    | Some x => {| p1Total := p1Total s + x; p1Count := p1Count s + 1;
                   p2Total := p2Total s; p2Count := p2Count s |}
    | None => s
    end in
  match t ≫= part2 with
  | Some x => {| p1Total := p1Total s; p1Count := p1Count s;
                 p2Total := p2Total s + x; p2Count := p2Count s + 1 |}
  | None => s
  end.

Record DayAverage := { avgP1 : option Z; avgP2 : option Z }.

Definition average (total count : Z) : option Z :=
  if 0 <? count then Some (Math_round (Qdiv (inject_Z total) (inject_Z count)))
  else None.

Definition day_average (memberStats : list MemberStats) (day : Z) : DayAverage :=
  let s := foldl (add_member day)
             {| p1Total := 0; p1Count := 0; p2Total := 0; p2Count := 0 |}
             memberStats in
  {| avgP1 := average (p1Total s) (p1Count s);
     avgP2 := average (p2Total s) (p2Count s) |}.

Definition day_averages (memberStats : list MemberStats) (num_days : Z)
    : gmap Z DayAverage :=
  foldl (λ avgs day, <[day := day_average memberStats day]> avgs) ∅
        (days_of num_days).

(** ** The overall table *)

(** [s.repeat count] throws a [RangeError] on a negative count. *)
Definition js_repeat (s : jsstring) (count : Z) : Js jsstring :=
  if count <? 0 then throw RangeError
  else mret (mjoin (replicate (Z.to_nat count) s)).

Definition leaderboard_row (num_days : Z) (im : nat * MemberStats) : Js unit :=
  let '(i, m) := im in
  let rank := padStart 4 (toString (Z.of_nat i + 1)) in
  let name := padEnd 24 (slice0 24 (Stats.name m)) in
  let score := padStart 7 (toString (Stats.score m)) in
  filled ← js_repeat (utf16 "★") (Stats.stars m);
  hollow ← js_repeat (utf16 "☆") (num_days * 2 - Stats.stars m);
  let starsDisplay := slice0 14 (filled ++ hollow) in
  console_log (utf16 "║ " ++ rank ++ utf16 " ║ " ++ name ++ utf16 " ║ "
               ++ score ++ utf16 " ║ " ++ starsDisplay ++ utf16 " ║").

Definition indexed {A} (l : list A) : list (nat * A) := imap pair l.

Definition leaderboard_table (num_days : Z) (memberStats : list MemberStats)
    : Js unit :=
  console_log (utf16 "╔════════════════════════════════════════════════════════════╗");;
  console_log (utf16 "║                    LEADERBOARD                             ║");;
  console_log (utf16 "╠══════╦══════════════════════════╦═════════╦════════════════╣");;
  console_log (utf16 "║ Rank ║ Name                     ║  Score  ║     Stars      ║");;
  console_log (utf16 "╠══════╬══════════════════════════╬═════════╬════════════════╣");;
  js_for (indexed memberStats) (leaderboard_row num_days);;
  console_log (utf16 "╚══════╩══════════════════════════╩═════════╩════════════════╝").

(** ** The per-day tables *)

Module DayRow.
Record t := { name : jsstring; p1 : Z; p2 : option Z }.
End DayRow.
Abbreviation DayCompletion := DayRow.t.

(** [memberStats.filter (...).map (...).sort (...)] of one day.  The
    non-null assertions of the [map] are erased; the [filter] before it
    keeps only members whose [part1] is present. *)
Definition has_part1 (day : Z) (m : MemberStats) : bool :=
  bool_decide (is_Some (Stats.times m !! day ≫= part1)).

Definition to_row (day : Z) (m : MemberStats) : DayCompletion :=
  {| DayRow.name := Stats.name m;
     DayRow.p1 := default 0 (Stats.times m !! day ≫= part1);
     DayRow.p2 := Stats.times m !! day ≫= part2 |}.

Definition day_completions (memberStats : list MemberStats) (day : Z)
    : list DayCompletion :=
  Array_sort (λ a b, DayRow.p1 a - DayRow.p1 b)
    (to_row day <$> filter (λ m, has_part1 day m = true) memberStats).

Definition dash_or_duration (x : option Z) : jsstring :=
  match x with
  | Some d => padStart 11 (formatDuration d)
  | None => padStart 11 (utf16 "-")
  end.

Definition day_row (ic : nat * DayCompletion) : jsstring :=
  let '(i, c) := ic in
  let rank := padStart 4 (toString (Z.of_nat i + 1)) in
  let name := padEnd 24 (slice0 24 (DayRow.name c)) in
  let p1 := padStart 11 (formatDuration (DayRow.p1 c)) in
  let p2 := dash_or_duration (DayRow.p2 c) in
  utf16 "│ " ++ rank ++ utf16 " │ " ++ name ++ utf16 " │ " ++ p1
    ++ utf16 " │ " ++ p2 ++ utf16 " │".

Definition day_header (day : Z) : list jsstring :=
  [ utf16 "";
    utf16 "┌─────────────────────────────────────────────────────────────┐";
    utf16 "│  DAY " ++ padEnd 54 (toString day) ++ utf16 "│";
    utf16 "├──────┬──────────────────────────┬─────────────┬─────────────┤";
    utf16 "│ Rank │ Name                     │   Part 1    │   Part 2    │";
    utf16 "├──────┼──────────────────────────┼─────────────┼─────────────┤" ].

Definition day_footer (avg : DayAverage) : list jsstring :=
  [ utf16 "│ AVERAGE                         │ " ++ dash_or_duration (avgP1 avg)
      ++ utf16 " │ " ++ dash_or_duration (avgP2 avg) ++ utf16 " │";
    utf16 "└─────────────────────────────────┴─────────────┴─────────────┘" ].

(** The rule between the rows and the average line of a per-day table. *)
Definition day_table_rule : jsstring :=
  utf16 "├──────┴──────────────────────────┼─────────────┼─────────────┤".

Definition day_table (memberStats : list MemberStats)
    (dayAverages : gmap Z DayAverage) (day : Z) : Js unit :=
  let avg := dayAverages !! day in
  let dayCompletions := day_completions memberStats day in
  if decide (length dayCompletions = 0%nat) then mret tt
  else
    js_for (day_header day) console_log;;
    js_for (indexed dayCompletions) (λ ic, console_log (day_row ic));;
    console_log day_table_rule;;
    avg ← defined avg;
    js_for (day_footer avg) console_log.

(** ** main *)

Definition leaderboard_url (env : Env) : jsstring :=
  utf16 "https://adventofcode.com/2025/leaderboard/private/view/"
    ++ LEADERBOARD_ID env ++ utf16 ".json?view_key=" ++ VIEW_KEY env.

Definition NEWLINE : N := 10%N.

(** The line logged before the request. *)
Definition fetching_line : jsstring :=
  utf16 "Fetching Advent of Code 2025 leaderboard..." ++ [NEWLINE].

(** The report of a response whose status is not a success:
    [`Failed to fetch: ${response.status} ${response.statusText}`]. *)
Definition fetch_failure (response : Response) : Logged :=
  LogText (utf16 "Failed to fetch: " ++ toString (status response)
           ++ utf16 " " ++ statusText response).

Definition main (env : Env) : Js unit :=
  console_log fetching_line;;
  response ← fetch env (leaderboard_url env);
  (if negb (ok response) then
     console_error (fetch_failure response);;
     process_exit 1
   else mret tt : Js unit);;
  data ← response_json response;
  object ← defined (members data);
  let members := Array_sort compare_members (Object_values object) in
  console_log (utf16 "Advent of Code " ++ event data ++ utf16 " · "
    ++ toString (Z.of_nat (length members)) ++ utf16 " members · "
    ++ toString (num_days data) ++ utf16 " days" ++ [NEWLINE]);;
  memberStats ← js_mapM (member_stats (num_days data)) members;
  let dayAverages := day_averages memberStats (num_days data) in
  leaderboard_table (num_days data) memberStats;;
  js_for (days_of (num_days data)) (day_table memberStats dayAverages).

Definition initial_world : World :=
  {| stdout := []; stderr := []; requests := [] |}.

(** [main().catch(console.error)]: a rejection of [main] is printed and the
    process then ends by itself, with exit code 0; [process.exit code]
    ends it with [code]. *)
Definition script (env : Env) : World * Z :=
  match main env initial_world with
  | (Normal _, w) => (w, 0)
  | (Throw e, w) => ((console_error (LogError e) w).2, 0)
  | (Exit code, w) => (w, code)
  end.

(** ** Reference notions used by the statements below *)

(** Round half away from zero, and round half to even, on the rationals. *)
Definition round_half_away (x : Q) : Z :=
  if Qle_bool 0 x then Qfloor (x + (1 # 2)) else Qceiling (x - (1 # 2)).

Definition round_half_even (x : Q) : Z :=
  let f := Qfloor x in
  match Qcompare (x - inject_Z f) (1 # 2) with
  | Lt => f
  | Gt => f + 1
  | Eq => if Z.even f then f else f + 1
  end.

(** The offsets of one part that are present on a day, member by member. *)
Definition present_offsets (part : DayTimes → option Z)
    (memberStats : list MemberStats) (day : Z) : list Z :=
  omap (λ m, Stats.times m !! day ≫= part) memberStats.

Definition sumZ (l : list Z) : Z := foldr Z.add 0 l.

(** Statistics of a member who has exactly one offset, for part 1 of [day]. *)
Definition solved_part1 (who : string) (day off : Z) : MemberStats :=
  {| Stats.name := utf16 who; Stats.score := 0; Stats.stars := 1;
     Stats.times := {[ day := {| part1 := Some off; part2 := None |} ]} |}.

(** A member whose part 1 of day 1 carries the timestamp 0. *)
Definition epoch_member : Member :=
  {| id := 7; name := Some (utf16 "Zero"); stars := 1; local_score := 1;
     last_star_ts := 0;
     completion_day_level :=
       Some [(utf16 "1", {| level_1 := Some {| get_star_ts := 0 |};
                            level_2 := None |})] |}.

(** The completion timestamp of a part of a day, as the document has it. *)
Definition completion_ts (cdl : CompletionDayLevel)
    (level : DayLevel → option StarInfo) (day : Z) : option Z :=
  get_star_ts <$> (get cdl (toString day) ≫= level).

(** The statistics [member_stats] computes when nothing throws. *)
Definition day_times (dayData : DayLevel) (day : Z) : DayTimes :=
  {| part1 := offset (get_star_ts <$> level_1 dayData) (getPuzzleUnlock day);
     part2 := offset (get_star_ts <$> level_2 dayData) (getPuzzleUnlock day) |}.

Definition put_day (cdl : CompletionDayLevel) (times : gmap Z DayTimes)
    (day : Z) : gmap Z DayTimes :=
  match get cdl (toString day) with
  | Some dayData => <[day := day_times dayData day]> times
  | None => times
  end.

Definition times_of (cdl : CompletionDayLevel) (days : list Z)
    : gmap Z DayTimes :=
  foldl (put_day cdl) ∅ days.

Definition stats_of (num_days : Z) (member : Member) : MemberStats :=
  {| Stats.name := display_name member;
     Stats.score := local_score member;
     Stats.stars := stars member;
     Stats.times := times_of (default [] (completion_day_level member))
                      (days_of num_days) |}.

(** [before cmp a b]: the comparator lets [a] stand before [b]. *)
Definition before {A} (cmp : A → A → Z) : relation A := λ a b, cmp a b ≤ 0.

(** The three keys of the overall order. *)
Definition key3 (m : Member) : Z * Z * Z :=
  (local_score m, stars m, last_star_ts m).

(** Higher score first, then more stars, then the earlier last star. *)
Definition ranks_above (a b : Member) : Prop :=
  local_score a > local_score b
  ∨ (local_score a = local_score b
     ∧ (stars a > stars b
        ∨ (stars a = stars b ∧ last_star_ts a < last_star_ts b))).

(** Two members equal on the three keys, under keys that are not array
    indices. *)
Definition tied_ann : Member :=
  {| id := 1; name := Some (utf16 "Ann"); stars := 2; local_score := 10;
     last_star_ts := 1764565300; completion_day_level := Some [] |}.
Definition tied_bob : Member :=
  {| id := 2; name := Some (utf16 "Bob"); stars := 2; local_score := 10;
     last_star_ts := 1764565300; completion_day_level := Some [] |}.
Definition members_ann_bob : JsObject Member :=
  [(utf16 "ann", tied_ann); (utf16 "bob", tied_bob)].

(** The world after [console.log] of each of [lines]. *)
Definition logged (lines : list jsstring) (w : World) : World :=
  {| stdout := stdout w ++ lines; stderr := stderr w; requests := requests w |}.

(** The text of a row of the overall table, when [repeat] does not throw. *)
Definition leaderboard_row_text (num_days : Z) (im : nat * MemberStats)
    : jsstring :=
  let '(i, m) := im in
  utf16 "║ " ++ padStart 4 (toString (Z.of_nat i + 1)) ++ utf16 " ║ "
    ++ padEnd 24 (slice0 24 (Stats.name m)) ++ utf16 " ║ "
    ++ padStart 7 (toString (Stats.score m)) ++ utf16 " ║ "
    ++ slice0 14 (mjoin (replicate (Z.to_nat (Stats.stars m)) (utf16 "★"))
                  ++ mjoin (replicate (Z.to_nat (num_days * 2 - Stats.stars m))
                              (utf16 "☆")))
    ++ utf16 " ║".

Definition leaderboard_head : list jsstring :=
  [ utf16 "╔════════════════════════════════════════════════════════════╗";
    utf16 "║                    LEADERBOARD                             ║";
    utf16 "╠══════╦══════════════════════════╦═════════╦════════════════╣";
    utf16 "║ Rank ║ Name                     ║  Score  ║     Stars      ║";
    utf16 "╠══════╬══════════════════════════╬═════════╬════════════════╣" ].

Definition leaderboard_lines (num_days : Z) (memberStats : list MemberStats)
    : list jsstring :=
  leaderboard_head
  ++ (leaderboard_row_text num_days <$> indexed memberStats)
  ++ [ utf16 "╚══════╩══════════════════════════╩═════════╩════════════════╝" ].

(** The lines of the table of one day: none when nobody has a part-1
    offset on that day. *)
Definition day_table_lines (memberStats : list MemberStats) (day : Z)
    : list jsstring :=
  let dayCompletions := day_completions memberStats day in
  if decide (length dayCompletions = 0%nat) then []
  else
    day_header day
    ++ (day_row <$> indexed dayCompletions)
    ++ [day_table_rule]
    ++ day_footer (day_average memberStats day).

(** The top border that opens a per-day table. *)
Definition day_table_top : jsstring :=
  utf16 "┌─────────────────────────────────────────────────────────────┐".

(** A member that [main] handles without an exception: its
    [completion_day_level] is there (or there is no day to look up), and
    its star count lies between 0 and twice the number of days. *)
Definition renderable (num_days : Z) (m : Member) : Prop :=
  (is_Some (completion_day_level m) ∨ num_days < 1)
  ∧ 0 ≤ stars m ≤ num_days * 2.

(** The standard output of a run that renders [data]. *)
Definition rendering (data : LeaderboardData) (object : JsObject Member)
    : list jsstring :=
  let members := Array_sort compare_members (Object_values object) in
  let memberStats := stats_of (num_days data) <$> members in
  [ fetching_line;
    utf16 "Advent of Code " ++ event data ++ utf16 " · "
      ++ toString (Z.of_nat (length members)) ++ utf16 " members · "
      ++ toString (num_days data) ++ utf16 " days" ++ [NEWLINE] ]
  ++ leaderboard_lines (num_days data) memberStats
  ++ mjoin (day_table_lines memberStats <$> days_of (num_days data)).

(** The order of the three keys alone: what [compare_members] decides. *)
Definition key3_le (x y : Z * Z * Z) : Prop :=
  let '(score_x, stars_x, ts_x) := x in
  let '(score_y, stars_y, ts_y) := y in
  score_x > score_y
  ∨ (score_x = score_y
     ∧ (stars_x > stars_y ∨ (stars_x = stars_y ∧ ts_x ≤ ts_y))).

(** The environment in which the leaderboard request succeeds with [data]. *)
Definition env_of (data : LeaderboardData) : Env :=
  {| LEADERBOARD_ID := utf16 "12345"; VIEW_KEY := utf16 "abc123";
     network := λ _, Fulfilled {| ok := true; status := 200;
                                  statusText := utf16 "OK";
                                  body := Some data |} |}.

Definition snapshot_of (object : JsObject Member) (days : Z) : LeaderboardData :=
  {| event := utf16 "2025"; owner_id := 1; members := Some object;
     num_days := days; day1_ts := DAY_1_UNLOCK |}.

(** The world after the single request, with [out] logged and [err]
    reported. *)
Definition after_request (env : Env) (out : list jsstring) (err : list Logged)
    : World :=
  {| stdout := out; stderr := err; requests := [leaderboard_url env] |}.

(** An environment whose request is answered by [r]. *)
Definition env_answering (r : Response) : Env :=
  {| LEADERBOARD_ID := utf16 "12345"; VIEW_KEY := utf16 "abc123";
     network := λ _, Fulfilled r |}.

Definition not_found : Response :=
  {| ok := false; status := 404; statusText := utf16 "Not Found";
     body := None |}.

Definition not_json : Response :=
  {| ok := true; status := 200; statusText := utf16 "OK"; body := None |}.

(** A member with more stars than two per day, on a one-day leaderboard. *)
Definition overstarred : Member :=
  {| id := 9; name := None; stars := 5; local_score := 3;
     last_star_ts := 1764565300; completion_day_level := Some [] |}.

(** ** parseArgs and the whole script *)

(** [s.includes(sub)]. *)
Fixpoint is_prefix (p s : jsstring) : bool :=
  match p, s with
  | [], _ => true
  | a :: p', b :: s' => if decide (a = b) then is_prefix p' s' else false
  | _ :: _, [] => false
  end.

Fixpoint includes (s sub : jsstring) : bool :=
  is_prefix sub s
  || match s with
     | [] => false
     | _ :: s' => includes s' sub
     end.

(** [\d]: an ASCII digit. *)
Definition is_digit (u : N) : bool := ((48 <=? u) && (u <=? 57))%N.

(** The longest run of digits at the start of [s]: what [(\d+)] takes. *)
Fixpoint take_digits (s : jsstring) : jsstring :=
  match s with
  | u :: r => if is_digit u then u :: take_digits r else []
  | [] => []
  end.

(** The leftmost place of [path] where [lit] is followed by a digit, and
    the digits that follow it there: the group [(\d+)] of a pattern made
    of the literal [lit] and [(\d+)]. *)
Fixpoint match_digits_after (lit path : jsstring) : option jsstring :=
  let here :=
    if is_prefix lit path then take_digits (drop (length lit) path) else [] in
  match here with
  | _ :: _ => Some here
  | [] =>
    match path with
    | [] => None
    | _ :: rest => match_digits_after lit rest
    end
  end.

Definition VIEW_PATH : jsstring := utf16 "/leaderboard/private/view/".

(** [path.match(/\/leaderboard\/private\/view\/(\d+)/)?.[1]]. *)
Definition match_view (path : jsstring) : option jsstring :=
  match_digits_after VIEW_PATH path.

(** What [new URL(s)] gives, as far as the script reads it: the path, and
    the query parameters in order ([searchParams.get] takes the first). *)
Record Url := {
  pathname : jsstring;
  searchParams : list (jsstring * jsstring)
}.

(** The host of a run: the command line, the environment variables, the
    URL parser of the platform ([None] where [new URL] throws) and the
    network. *)
Record Host := {
  argv : list jsstring;
  environ : JsObject jsstring;
  new_URL : jsstring → option Url;
  host_network : jsstring → FetchResult
}.

(** A string that is neither [undefined], [null] nor empty. *)
Definition nonempty (x : option jsstring) : bool :=
  match x with
  | Some (_ :: _) => true
  | _ => false
  end.

Definition DOMAIN : jsstring := utf16 "adventofcode.com".

Definition invalid_url_lines : list jsstring :=
  [ utf16 "Invalid URL. Expected format:";
    utf16 "  https://adventofcode.com/2025/leaderboard/private/view/12345?view_key=abc123" ].

Definition usage_lines : list jsstring :=
  [ utf16 "Usage:";
    utf16 "  npx tsx aoc-times.ts <leaderboard-url>";
    utf16 "  npx tsx aoc-times.ts <leaderboard-id> <view-key>";
    utf16 "";
    utf16 "Or set environment variables:";
    utf16 "  ADVENT_OF_CODE_LEADERBOARD_ID=12345";
    utf16 "  ADVENT_OF_CODE_VIEW_KEY=abc123";
    utf16 "";
    utf16 "Find your URL at: https://adventofcode.com/2025/leaderboard/private" ].

(** The [console.error] calls of a block, one per line. *)
Definition report (lines : list jsstring) : Js unit :=
  js_for lines (λ line, console_error (LogText line)).

Definition parseArgs_url (host : Host) (arg : jsstring)
    : Js (jsstring * jsstring) :=
  url ← defined (new_URL host arg);
  let leaderboardId := match_view (pathname url) in
  let viewKey := get (searchParams url) (utf16 "view_key") in
  if negb (nonempty leaderboardId) || negb (nonempty viewKey) then
    report invalid_url_lines;;
    process_exit 1
  else mret (default [] leaderboardId, default [] viewKey).

Definition parseArgs_rest (host : Host) (args : list jsstring)
    : Js (jsstring * jsstring) :=
  if nonempty (args !! 0%nat) && nonempty (args !! 1%nat) then
    mret (default [] (args !! 0%nat), default [] (args !! 1%nat))
  else
    let leaderboardId :=
      get (environ host) (utf16 "ADVENT_OF_CODE_LEADERBOARD_ID") in
    let viewKey := get (environ host) (utf16 "ADVENT_OF_CODE_VIEW_KEY") in
    if negb (nonempty leaderboardId) || negb (nonempty viewKey) then
      report usage_lines;;
      process_exit 1
    else mret (default [] leaderboardId, default [] viewKey).

Definition parseArgs (host : Host) : Js (jsstring * jsstring) :=
  let args := drop 2 (argv host) in
  match args !! 0%nat with
  | Some arg =>
    if includes arg DOMAIN then parseArgs_url host arg
    else parseArgs_rest host args
  | None => parseArgs_rest host args
  end.

Definition env_from (host : Host) (config : jsstring * jsstring) : Env :=
  {| LEADERBOARD_ID := config.1; VIEW_KEY := config.2;
     network := host_network host |}.

(** The module from top to bottom: [parseArgs()] runs first, outside any
    handler, so an exception of it ends the process with exit code 1;
    then [main().catch(console.error)]. *)
Definition program (host : Host) : World * Z :=
  match parseArgs host initial_world with
  | (Normal config, w) =>
    match main (env_from host config) w with
    | (Normal _, w') => (w', 0)
    | (Throw e, w') => ((console_error (LogError e) w').2, 0)
    | (Exit code, w') => (w', code)
    end
  | (Throw e, w) => ((console_error (LogError e) w).2, 1)
  | (Exit code, w) => (w, code)
  end.

(** A command line [node aoc-times.ts args...] on a host without the two
    environment variables, whose URL parser reads [url] as [parsed]. *)
Definition host_with (args : list jsstring) (vars : JsObject jsstring)
    (parsed : option Url) : Host :=
  {| argv := utf16 "node" :: utf16 "aoc-times.ts" :: args;
     environ := vars;
     new_URL := λ _, parsed;
     host_network := λ _, Rejected |}.

Definition sample_url : jsstring :=
  utf16 "https://adventofcode.com/2025/leaderboard/private/view/12345?view_key=abc123".

Definition sample_parsed : Url :=
  {| pathname := utf16 "/2025/leaderboard/private/view/12345";
     searchParams := [(utf16 "view_key", utf16 "abc123")] |}.

Definition sample_vars : JsObject jsstring :=
  [ (utf16 "ADVENT_OF_CODE_LEADERBOARD_ID", utf16 "777");
    (utf16 "ADVENT_OF_CODE_VIEW_KEY", utf16 "envkey") ].

Definition ID_VAR : jsstring := utf16 "ADVENT_OF_CODE_LEADERBOARD_ID".
Definition KEY_VAR : jsstring := utf16 "ADVENT_OF_CODE_VIEW_KEY".

(** The world after [console.error] of each of [lines]. *)
Definition reported (lines : list jsstring) (w : World) : World :=
  {| stdout := stdout w; stderr := stderr w ++ (LogText <$> lines);
     requests := requests w |}.

(** A computation that only logs: it reports nothing on the error stream,
    makes no request and does not end the process (it may throw). *)
Definition logs_only {A} (m : Js A) : Prop :=
  ∀ w, stderr (m w).2 = stderr w ∧ requests (m w).2 = requests w
       ∧ ∀ code, (m w).1 ≠ Exit code.

(** The second line of a run: event, number of members, number of days. *)
Definition summary_line (data : LeaderboardData) (object : JsObject Member)
    : jsstring :=
  utf16 "Advent of Code " ++ event data ++ utf16 " · "
    ++ toString (Z.of_nat (length (Array_sort compare_members
                                     (Object_values object))))
    ++ utf16 " members · " ++ toString (num_days data) ++ utf16 " days"
    ++ [NEWLINE].

(** A member of the document without [completion_day_level]. *)
Definition bare_member : Member :=
  {| id := 3; name := None; stars := 0; local_score := 0; last_star_ts := 0;
     completion_day_level := None |}.

Definition FILLED_STAR : N := 9733%N.
Definition HOLLOW_STAR : N := 9734%N.

(** * Properties *)

(** ** Unlock instants *)

(** C7: the unlock instant of day [d] is the fixed day-1 instant
    1764565200 plus [d - 1] days of 86400 seconds; consecutive unlock
    instants differ by exactly 86400 seconds and are strictly increasing. *)
Theorem getPuzzleUnlock_daily (d : Z) :
  getPuzzleUnlock 1 = 1764565200
  ∧ getPuzzleUnlock d = getPuzzleUnlock 1 + (d - 1) * 86400
  ∧ getPuzzleUnlock (d + 1) - getPuzzleUnlock d = 86400
  ∧ getPuzzleUnlock d < getPuzzleUnlock (d + 1).
Proof.
  unfold getPuzzleUnlock, DAY_1_UNLOCK, SECONDS_PER_DAY.
  repeat split; lia.
Qed.

(** ** formatDuration *)

Lemma formatDuration_negative s : s < 0 → formatDuration s = utf16 "N/A".
Proof.
  intros Hs. unfold formatDuration.
  by destruct (Z.ltb_spec s 0); [|lia].
Qed.

(** The four units of a non-negative duration. *)
Lemma duration_units s :
  0 ≤ s →
  let d := s / 86400 in
  let h := Z.rem s 86400 / 3600 in
  let m := Z.rem s 3600 / 60 in
  let sec := Z.rem s 60 in
  s = d * 86400 + h * 3600 + m * 60 + sec
  ∧ 0 ≤ d ∧ 0 ≤ h < 24 ∧ 0 ≤ m < 60 ∧ 0 ≤ sec < 60.
Proof.
  intros Hs d h m sec. subst d h m sec.
  rewrite !Z.rem_mod_nonneg by lia.
  Z.to_euclidean_division_equations. lia.
Qed.

(** C6: a negative duration renders as [N/A]; a non-negative one splits
    into days, hours (below 24), minutes and seconds (below 60) and shows
    days, hours and minutes when days are present, else hours, minutes and
    seconds when hours are present, else minutes and seconds when minutes
    are present, else seconds alone; the five sample renderings hold. *)
Theorem formatDuration_spec (s : Z) :
  (s < 0 → formatDuration s = utf16 "N/A")
  ∧ (0 ≤ s → ∃ d h m sec,
       s = d * 86400 + h * 3600 + m * 60 + sec
       ∧ 0 ≤ d ∧ 0 ≤ h < 24 ∧ 0 ≤ m < 60 ∧ 0 ≤ sec < 60
       ∧ (0 < d → formatDuration s =
            toString d ++ utf16 "d " ++ toString h ++ utf16 "h "
            ++ toString m ++ utf16 "m")
       ∧ (d = 0 → 0 < h → formatDuration s =
            toString h ++ utf16 "h " ++ toString m ++ utf16 "m "
            ++ toString sec ++ utf16 "s")
       ∧ (d = 0 → h = 0 → 0 < m → formatDuration s =
            toString m ++ utf16 "m " ++ toString sec ++ utf16 "s")
       ∧ (d = 0 → h = 0 → m = 0 → formatDuration s =
            toString sec ++ utf16 "s"))
  ∧ formatDuration (-1) = utf16 "N/A"
  ∧ formatDuration 0 = utf16 "0s"
  ∧ formatDuration 65 = utf16 "1m 5s"
  ∧ formatDuration 3661 = utf16 "1h 1m 1s"
  ∧ formatDuration 90000 = utf16 "1d 1h 0m".
Proof.
  split; [apply formatDuration_negative|].
  split; [|by vm_compute].
  intros Hs.
  destruct (duration_units s Hs) as (Hsum & Hd & Hh & Hm & Hsec).
  exists (s / 86400), (Z.rem s 86400 / 3600), (Z.rem s 3600 / 60), (Z.rem s 60).
  split_and!; try done; try lia; unfold formatDuration;
    (destruct (Z.ltb_spec s 0); [lia|]); intros;
    repeat match goal with
    | |- context [0 <? ?x] => destruct (Z.ltb_spec 0 x); try lia
    end; done.
Qed.

Lemma formatDuration_spec_witness :
  formatDuration (-7) = utf16 "N/A"
  ∧ ∃ d h m sec, 93784 = d * 86400 + h * 3600 + m * 60 + sec ∧ 0 ≤ d.
Proof.
  split.
  - destruct (formatDuration_spec (-7)) as [H _]. apply H. lia.
  - destruct (formatDuration_spec 93784) as (_ & H & _).
    destruct H as (d & h & m & sec & Hsum & Hd & _); [lia|].
    exists d, h, m, sec. split; assumption.
Defined.

(** ** Day averages *)

(** [Math.round (total / count)] in integer arithmetic. *)
Lemma Math_round_div (total count : Z) :
  0 < count →
  Math_round (Qdiv (inject_Z total) (inject_Z count))
  = (2 * total + count) / (2 * count).
Proof.
  intros Hc. destruct count as [|p|p]; try lia.
  unfold Math_round, Qdiv, Qmult, Qinv, Qplus, Qfloor, inject_Z. simpl.
  f_equal; lia.
Qed.

(** The rounded quotient is within a half of the exact one, and a tie
    goes up. *)
Lemma half_up_bounds (total count : Z) :
  0 < count →
  let r := (2 * total + count) / (2 * count) in
  2 * r * count ≤ 2 * total + count < 2 * (r + 1) * count.
Proof.
  intros Hc r. subst r.
  pose proof (Z.mul_div_le (2 * total + count) (2 * count)).
  pose proof (Z.mul_succ_div_gt (2 * total + count) (2 * count)).
  lia.
Qed.

Lemma average_Some (total count : Z) :
  0 < count →
  average total count = Some ((2 * total + count) / (2 * count)).
Proof.
  intros Hc. unfold average.
  destruct (Z.ltb_spec 0 count); [|lia]. by rewrite Math_round_div.
Qed.

Lemma average_None (total count : Z) : count ≤ 0 → average total count = None.
Proof. intros Hc. unfold average. by destruct (Z.ltb_spec 0 count); [lia|]. Qed.

(** The accumulators of the averaging loop are the sum and the number of
    the offsets that are present. *)
Lemma totals_present (day : Z) (memberStats : list MemberStats) (s : Totals) :
  let s' := foldl (add_member day) s memberStats in
  p1Total s' = p1Total s + sumZ (present_offsets part1 memberStats day)
  ∧ p1Count s' = p1Count s + Z.of_nat (length (present_offsets part1 memberStats day))
  ∧ p2Total s' = p2Total s + sumZ (present_offsets part2 memberStats day)
  ∧ p2Count s' = p2Count s + Z.of_nat (length (present_offsets part2 memberStats day)).
Proof.
  revert s. induction memberStats as [|m ms IH]; intros s; simpl.
  { unfold sumZ; simpl; lia. }
  destruct (IH (add_member day s m)) as (H1 & H2 & H3 & H4).
  rewrite H1, H2, H3, H4. clear IH H1 H2 H3 H4.
  unfold add_member, present_offsets; simpl.
  destruct (Stats.times m !! day ≫= part1) as [x1|];
    destruct (Stats.times m !! day ≫= part2) as [x2|]; simpl;
    unfold sumZ; simpl; lia.
Qed.

Lemma day_average_unfold (memberStats : list MemberStats) (day : Z) :
  day_average memberStats day =
  {| avgP1 := average (sumZ (present_offsets part1 memberStats day))
                (Z.of_nat (length (present_offsets part1 memberStats day)));
     avgP2 := average (sumZ (present_offsets part2 memberStats day))
                (Z.of_nat (length (present_offsets part2 memberStats day))) |}.
Proof.
  unfold day_average.
  destruct (totals_present day memberStats
              {| p1Total := 0; p1Count := 0; p2Total := 0; p2Count := 0 |})
    as (H1 & H2 & H3 & H4).
  simpl in *. by rewrite H1, H2, H3, H4.
Qed.

Lemma sumZ_Permutation (l1 l2 : list Z) : l1 ≡ₚ l2 → sumZ l1 = sumZ l2.
Proof. unfold sumZ. induction 1; simpl; lia. Qed.

(** What [average] gives on the sum and the number of a list of offsets. *)
Lemma average_of_offsets (offs : list Z) :
  let n := Z.of_nat (length offs) in
  let avg := average (sumZ offs) n in
  (avg = None ↔ offs = [])
  ∧ (∀ r, avg = Some r →
       r = Math_round (Qdiv (inject_Z (sumZ offs)) (inject_Z n))
       ∧ Z.abs (2 * (r * n - sumZ offs)) ≤ n).
Proof.
  intros n avg. subst avg. generalize (sumZ offs) as total. intros total.
  destruct (decide (offs = [])) as [->|Hne].
  { subst n. simpl. rewrite average_None by lia. by split; [split|]. }
  assert (0 < n) by (subst n; destruct offs; simpl; [done|lia]).
  clearbody n. rewrite average_Some by done. split; [by split|].
  intros r [= <-]. rewrite Math_round_div by done. split; [done|].
  pose proof (half_up_bounds total n ltac:(done)) as Hb.
  cbv zeta in Hb. apply Z.abs_le.
  generalize dependent ((2 * total + n) / (2 * n)). intros. lia.
Qed.

(** C4: on every day the average of a part is taken over exactly the
    offsets of that part that are present, each part on its own: it is
    absent exactly when no offset is present, and otherwise it is the mean
    (sum over number) rounded to an integer within half a second of it;
    part-1 offsets 10, 20 and 21 give 17. *)
Theorem day_average_mean (memberStats : list MemberStats) (day : Z) :
  let avg := day_average memberStats day in
  let offs1 := present_offsets part1 memberStats day in
  let offs2 := present_offsets part2 memberStats day in
  let n1 := Z.of_nat (length offs1) in
  let n2 := Z.of_nat (length offs2) in
  (avgP1 avg = None ↔ offs1 = [])
  ∧ (∀ r, avgP1 avg = Some r →
       r = Math_round (Qdiv (inject_Z (sumZ offs1)) (inject_Z n1))
       ∧ Z.abs (2 * (r * n1 - sumZ offs1)) ≤ n1)
  ∧ (avgP2 avg = None ↔ offs2 = [])
  ∧ (∀ r, avgP2 avg = Some r →
       r = Math_round (Qdiv (inject_Z (sumZ offs2)) (inject_Z n2))
       ∧ Z.abs (2 * (r * n2 - sumZ offs2)) ≤ n2)
  ∧ (offs1 ≡ₚ [10; 20; 21] → avgP1 avg = Some 17).
Proof.
  intros avg offs1 offs2 n1 n2. subst avg.
  rewrite day_average_unfold. simpl. fold offs1 offs2 n1 n2.
  destruct (average_of_offsets offs1) as [H1 H1'].
  destruct (average_of_offsets offs2) as [H2 H2'].
  split_and!; try done.
  intros Hp. subst n1.
  rewrite (sumZ_Permutation _ _ Hp), (Permutation_length Hp). by vm_compute.
Qed.

Lemma day_average_mean_witness :
  avgP1 (day_average
           [solved_part1 "a" 1 10; solved_part1 "b" 1 20; solved_part1 "c" 1 21]
           1) = Some 17.
Proof.
  apply (day_average_mean
           [solved_part1 "a" 1 10; solved_part1 "b" 1 20; solved_part1 "c" 1 21]
           1).
  vm_compute. reflexivity.
Defined.

(** The rule of [Math.round]: the nearest integer, a tie going up. *)
Lemma round_half_away_nonneg (total count : Z) :
  0 ≤ total → 0 < count →
  round_half_away (Qdiv (inject_Z total) (inject_Z count))
  = Math_round (Qdiv (inject_Z total) (inject_Z count)).
Proof.
  intros Ht Hc. unfold round_half_away.
  destruct (Qle_bool 0 _) eqn:Hle; [done|].
  assert (Qle_bool 0 (Qdiv (inject_Z total) (inject_Z count)) = true) as Hle'.
  { apply Qle_bool_iff. destruct count as [|p|p]; try lia.
    unfold Qle, Qdiv, Qmult, Qinv, inject_Z. simpl. lia. }
  congruence.
Qed.

(** C5 (as the code has it): every day average is rounded by one fixed
    rule, round half up: the result [r] is the integer with
    [r - 1/2 <= mean < r + 1/2], so a mean at an exact .5 boundary goes to
    the integer above it, for negative means too; for a non-negative mean
    this is round-half-away-from-zero. *)
Theorem average_rounds_half_up (total count : Z) :
  0 < count →
  ∃ r, average total count = Some r
       ∧ r = Math_round (Qdiv (inject_Z total) (inject_Z count))
       ∧ 2 * r * count ≤ 2 * total + count < 2 * (r + 1) * count
       ∧ (∀ k, 2 * total = (2 * k + 1) * count → r = k + 1)
       ∧ (0 ≤ total →
          r = round_half_away (Qdiv (inject_Z total) (inject_Z count))).
Proof.
  intros Hc. exists ((2 * total + count) / (2 * count)).
  pose proof (half_up_bounds total count Hc) as Hb. cbv zeta in Hb.
  split_and!.
  - by apply average_Some.
  - by rewrite Math_round_div.
  - lia.
  - lia.
  - intros k Hk. generalize dependent ((2 * total + count) / (2 * count)).
    intros r Hr. nia.
  - intros Ht. by rewrite round_half_away_nonneg, Math_round_div.
Qed.

Lemma average_rounds_half_up_witness :
  ∃ r, average 3 2 = Some r ∧ r = 2.
Proof.
  destruct (average_rounds_half_up 3 2) as (r & Hr & _ & _ & Hk & _); [lia|].
  exists r. split; [exact Hr|]. apply (Hk 1). lia.
Defined.

(** The mean -1.5 of the offsets -1 and -2 is rounded to -1, where both
    round-half-away-from-zero and round-half-to-even give -2. *)
Lemma average_neither_away_nor_even :
  let ms := [solved_part1 "a" 1 (-1); solved_part1 "b" 1 (-2)] in
  let mean := Qdiv (inject_Z (-3)) (inject_Z 2) in
  present_offsets part1 ms 1 = [-1; -2]
  ∧ avgP1 (day_average ms 1) = Some (-1)
  ∧ avgP1 (day_average ms 1) ≠ Some (round_half_away mean)
  ∧ avgP1 (day_average ms 1) ≠ Some (round_half_even mean).
Proof. by vm_compute. Qed.

(** ** Offsets *)

Lemma days_of_elem (num_days d : Z) : d ∈ days_of num_days ↔ 1 ≤ d ≤ num_days.
Proof. unfold days_of. rewrite elem_of_seqZ. lia. Qed.

Lemma record_days_run (member : Member) (cdl : CompletionDayLevel)
    (days : list Z) (times : gmap Z DayTimes) (w : World) :
  completion_day_level member = Some cdl →
  js_foldM (record_day member) times days w
  = (Normal (foldl (put_day cdl) times days), w).
Proof.
  intros Hcdl. revert times. induction days as [|d days IH]; intros times.
  { done. }
  simpl. unfold mbind, Js_bind. unfold record_day at 1. rewrite Hcdl. simpl.
  unfold mbind, Js_bind, mret, Js_ret. simpl.
  unfold put_day at 2, day_times.
  destruct (get cdl (toString d)); apply IH.
Qed.

Lemma member_stats_run (num_days : Z) (member : Member) (w : World) :
  is_Some (completion_day_level member) ∨ num_days < 1 →
  member_stats num_days member w = (Normal (stats_of num_days member), w).
Proof.
  intros [[cdl Hcdl]|Hn]; unfold member_stats, stats_of, times_of.
  - unfold mbind, Js_bind. rewrite (record_days_run _ cdl) by done.
    by rewrite Hcdl.
  - unfold days_of. replace (seqZ 1 num_days) with (@nil Z); [done|].
    unfold seqZ. by replace (Z.to_nat num_days) with 0%nat by lia.
Qed.

Lemma member_stats_throw (num_days : Z) (member : Member) (w : World) :
  completion_day_level member = None → 1 ≤ num_days →
  member_stats num_days member w = (Throw TypeError, w).
Proof.
  intros Hcdl Hn. unfold member_stats, days_of, seqZ.
  destruct (Z.to_nat num_days) as [|k] eqn:Hk; [lia|].
  simpl. unfold mbind, Js_bind. unfold record_day at 1. by rewrite Hcdl.
Qed.

Lemma put_days_lookup (cdl : CompletionDayLevel) (days : list Z)
    (times : gmap Z DayTimes) (d : Z) :
  foldl (put_day cdl) times days !! d =
  if decide (d ∈ days) then
    match get cdl (toString d) with
    | Some dayData => Some (day_times dayData d)
    | None => times !! d
    end
  else times !! d.
Proof.
  revert times. induction days as [|d' days IH]; intros times; cbn [foldl].
  { by rewrite decide_False by apply not_elem_of_nil. }
  rewrite IH. unfold put_day at 1 2.
  destruct (decide (d = d')) as [<-|Hne].
  - rewrite (decide_True (P := d ∈ d :: days)) by left.
    destruct (get cdl (toString d)) eqn:Hget.
    + rewrite lookup_insert_eq. by destruct (decide (d ∈ days)).
    + by destruct (decide (d ∈ days)).
  - destruct (decide (d ∈ days)) as [Hin|Hnin].
    + rewrite (decide_True (P := d ∈ d' :: days)) by (by right).
      destruct (get cdl (toString d)); [done|].
      destruct (get cdl (toString d')); [|done].
      by rewrite lookup_insert_ne.
    + rewrite (decide_False (P := d ∈ d' :: days))
        by (rewrite elem_of_cons; tauto).
      destruct (get cdl (toString d')); [|done].
      by rewrite lookup_insert_ne.
Qed.

Lemma times_of_lookup (cdl : CompletionDayLevel) (num_days d : Z) :
  times_of cdl (days_of num_days) !! d =
  if decide (1 ≤ d ≤ num_days)
  then (λ dayData, day_times dayData d) <$> get cdl (toString d)
  else None.
Proof.
  unfold times_of. rewrite put_days_lookup, lookup_empty.
  destruct (decide (1 ≤ d ≤ num_days)) as [Hd|Hd].
  - rewrite decide_True by (by apply days_of_elem).
    by destruct (get cdl (toString d)).
  - rewrite decide_False; [done|]. by rewrite days_of_elem.
Qed.

Lemma offset_Some_iff (partTs : option Z) (unlock o : Z) :
  offset partTs unlock = Some o ↔ ∃ ts, partTs = Some ts ∧ ts ≠ 0 ∧ o = ts - unlock.
Proof.
  unfold offset, truthy. destruct partTs as [ts|]; simpl.
  - destruct (Z.eqb_spec ts 0); simpl; split.
    + done.
    + intros (? & [= <-] & ? & _). done.
    + intros [= <-]. eauto.
    + intros (? & [= <-] & _ & ->). done.
  - split; [done|]. by intros (? & ? & _).
Qed.

(** The offsets of a member are those of the timestamps of the document:
    a part's offset of a day from 1 to [num_days] is the timestamp minus
    the unlock instant of the day when the timestamp is present and not 0,
    and absent otherwise. *)
Lemma member_offsets (num_days day : Z) (member : Member)
    (cdl : CompletionDayLevel) :
  completion_day_level member = Some cdl → 1 ≤ day ≤ num_days →
  let t := Stats.times (stats_of num_days member) !! day in
  t ≫= part1 = offset (completion_ts cdl level_1 day) (getPuzzleUnlock day)
  ∧ t ≫= part2 = offset (completion_ts cdl level_2 day) (getPuzzleUnlock day).
Proof.
  intros Hcdl Hday. unfold stats_of. simpl. rewrite Hcdl. simpl.
  rewrite times_of_lookup, decide_True by done.
  unfold completion_ts. by destruct (get cdl (toString day)).
Qed.

(** C3 (failing input): the part-1 timestamp of day 1 of [epoch_member] is
    present in the document, with value 0, and [member_stats] returns an
    absent part-1 offset for it, where the claim has the offset present
    and equal to [0 - unlock 1]; the member is then missing from the table
    of day 1, which is not printed. *)
Theorem offset_absent_for_timestamp_zero :
  (completion_day_level epoch_member ≫= λ cdl, completion_ts cdl level_1 1)
  = Some 0
  ∧ member_stats 1 epoch_member initial_world
    = (Normal (stats_of 1 epoch_member), initial_world)
  ∧ Stats.times (stats_of 1 epoch_member) !! 1
    = Some {| part1 := None; part2 := None |}
  ∧ day_completions [stats_of 1 epoch_member] 1 = [].
Proof.
  split; [by vm_compute|]. split; [|by vm_compute].
  apply member_stats_run. left. by eexists.
Qed.

(** ** The stable sort *)

Section SortFacts.
Context {A : Type} (cmp : A → A → Z).

Lemma sort_insert_Permutation (x : A) (l : list A) :
  sort_insert cmp x l ≡ₚ x :: l.
Proof.
  induction l as [|y l IH]; simpl; [done|].
  destruct (cmp x y <=? 0); [done|]. by rewrite IH, Permutation_swap.
Qed.

Lemma Array_sort_Permutation (l : list A) : Array_sort cmp l ≡ₚ l.
Proof.
  induction l as [|x l IH]; simpl; [done|].
  by rewrite sort_insert_Permutation, IH.
Qed.

Lemma Array_sort_length (l : list A) : length (Array_sort cmp l) = length l.
Proof. apply Permutation_length, Array_sort_Permutation. Qed.

(** Elements that the comparator never separates keep their order. *)
Lemma sort_insert_stable (P : A → Prop) `{∀ x, Decision (P x)} x l :
  (∀ a b, P a → P b → cmp a b ≤ 0) →
  filter P (sort_insert cmp x l) = filter P (x :: l).
Proof.
  intros Htie. induction l as [|y l IH]; simpl; [done|].
  destruct (Z.leb_spec (cmp x y) 0) as [Hle|Hgt]; [done|].
  rewrite filter_cons, IH, !filter_cons.
  destruct (decide (P y)) as [Hy|Hy]; [|done].
  destruct (decide (P x)) as [Hx|Hx]; [|done].
  specialize (Htie x y Hx Hy). lia.
Qed.

Lemma Array_sort_stable (P : A → Prop) `{∀ x, Decision (P x)} l :
  (∀ a b, P a → P b → cmp a b ≤ 0) →
  filter P (Array_sort cmp l) = filter P l.
Proof.
  intros Htie. induction l as [|x l IH]; simpl; [done|].
  by rewrite sort_insert_stable, !filter_cons, IH.
Qed.

Context `{!Total (before cmp), !Transitive (before cmp)}.

Lemma sort_insert_sorted (x : A) (l : list A) :
  StronglySorted (before cmp) l →
  StronglySorted (before cmp) (sort_insert cmp x l).
Proof.
  induction 1 as [|y l Hl IH Hy]; simpl.
  { repeat constructor. }
  destruct (Z.leb_spec (cmp x y) 0) as [Hle|Hgt].
  - constructor; [by constructor|]. constructor; [done|].
    eapply Forall_impl; [exact Hy|]. intros z Hz. by trans y.
  - constructor; [done|]. rewrite sort_insert_Permutation.
    constructor; [|done].
    destruct (total (before cmp) x y) as [Hxy|Hyx]; [|done].
    unfold before in Hxy. lia.
Qed.

Lemma Array_sort_sorted (l : list A) :
  StronglySorted (before cmp) (Array_sort cmp l).
Proof.
  induction l as [|x l IH]; simpl; [constructor|by apply sort_insert_sorted].
Qed.

End SortFacts.

(** ** The comparator of the overall table *)

Lemma compare_members_lex (a b : Member) :
  compare_members a b < 0 ↔ ranks_above a b.
Proof.
  unfold compare_members, ranks_above.
  destruct (Z.eqb_spec (local_score b) (local_score a)); simpl; [|lia].
  destruct (Z.eqb_spec (stars b) (stars a)); simpl; lia.
Qed.

Lemma compare_members_zero (a b : Member) :
  compare_members a b = 0 ↔ key3 a = key3 b.
Proof.
  unfold compare_members, key3.
  destruct (Z.eqb_spec (local_score b) (local_score a)); simpl;
    [|split; [lia|intros [=]; lia]].
  destruct (Z.eqb_spec (stars b) (stars a)); simpl;
    [|split; [lia|intros [=]; lia]].
  split; [intros; f_equal; [f_equal|]; lia|intros [=]; lia].
Qed.

Lemma compare_members_flip (a b : Member) :
  compare_members b a = - compare_members a b.
Proof.
  unfold compare_members.
  destruct (Z.eqb_spec (local_score b) (local_score a));
    destruct (Z.eqb_spec (local_score a) (local_score b)); simpl; try lia.
  destruct (Z.eqb_spec (stars b) (stars a));
    destruct (Z.eqb_spec (stars a) (stars b)); simpl; lia.
Qed.

Lemma compare_members_trans (a b c : Member) :
  compare_members a b ≤ 0 → compare_members b c ≤ 0 → compare_members a c ≤ 0.
Proof.
  unfold compare_members.
  destruct (Z.eqb_spec (local_score b) (local_score a));
    destruct (Z.eqb_spec (local_score c) (local_score b));
    destruct (Z.eqb_spec (local_score c) (local_score a)); simpl; try lia;
  destruct (Z.eqb_spec (stars b) (stars a));
    destruct (Z.eqb_spec (stars c) (stars b));
    destruct (Z.eqb_spec (stars c) (stars a)); simpl; lia.
Qed.

Global Instance compare_members_total : Total (before compare_members).
Proof. intros a b. unfold before. rewrite (compare_members_flip a b). lia. Qed.

Global Instance compare_members_transitive : Transitive (before compare_members).
Proof. intros a b c. apply compare_members_trans. Qed.

(** ** Running the effects *)

Lemma bind_normal {A B} (m : Js A) (f : A → Js B) (w w' : World) (a : A) :
  m w = (Normal a, w') → (m ≫= f) w = f a w'.
Proof. intros Hm. unfold mbind, Js_bind. by rewrite Hm. Qed.

Lemma bind_throw {A B} (m : Js A) (f : A → Js B) (w w' : World) (e : JsError) :
  m w = (Throw e, w') → (m ≫= f) w = (Throw e, w').
Proof. intros Hm. unfold mbind, Js_bind. by rewrite Hm. Qed.

Lemma bind_exit {A B} (m : Js A) (f : A → Js B) (w w' : World) (code : Z) :
  m w = (Exit code, w') → (m ≫= f) w = (Exit code, w').
Proof. intros Hm. unfold mbind, Js_bind. by rewrite Hm. Qed.

Lemma logged_nil (w : World) : logged [] w = w.
Proof. destruct w. unfold logged. simpl. by rewrite app_nil_r. Qed.

Lemma logged_app (l1 l2 : list jsstring) (w : World) :
  logged l2 (logged l1 w) = logged (l1 ++ l2) w.
Proof. unfold logged. simpl. by rewrite app_assoc. Qed.

Lemma console_log_run (s : jsstring) (w : World) :
  console_log s w = (Normal tt, logged [s] w).
Proof. done. Qed.

Lemma js_for_log {A} (f : A → jsstring) (l : list A) (w : World) :
  js_for l (λ x, console_log (f x)) w = (Normal tt, logged (f <$> l) w).
Proof.
  revert w. induction l as [|x l IH]; intros w; simpl.
  { by rewrite logged_nil. }
  erewrite bind_normal by apply console_log_run.
  by rewrite IH, logged_app.
Qed.

Lemma js_for_console_log (lines : list jsstring) (w : World) :
  js_for lines console_log w = (Normal tt, logged lines w).
Proof.
  revert w. induction lines as [|s lines IH]; intros w; simpl.
  { by rewrite logged_nil. }
  erewrite bind_normal by apply console_log_run.
  by rewrite IH, logged_app.
Qed.

Lemma js_for_run {A} (body : A → Js unit) (f : A → list jsstring)
    (l : list A) (w : World) :
  (∀ x w, x ∈ l → body x w = (Normal tt, logged (f x) w)) →
  js_for l body w = (Normal tt, logged (mjoin (f <$> l)) w).
Proof.
  revert w. induction l as [|x l IH]; intros w Hbody; simpl.
  { by rewrite logged_nil. }
  erewrite bind_normal by (apply Hbody; left).
  rewrite IH, logged_app; [done|]. intros y w' Hy. apply Hbody. by right.
Qed.

Lemma mjoin_singletons {A B} (f : A → B) (l : list A) :
  mjoin ((λ x, [f x]) <$> l) = f <$> l.
Proof. induction l as [|x l IH]; simpl; [done|by f_equal]. Qed.

Lemma js_mapM_run {A B} (f : A → Js B) (g : A → B) (l : list A) (w : World) :
  (∀ x w, x ∈ l → f x w = (Normal (g x), w)) →
  js_mapM f l w = (Normal (g <$> l), w).
Proof.
  intros Hf. induction l as [|x l IH]; simpl; [done|].
  erewrite bind_normal by (apply Hf; left).
  erewrite bind_normal by (apply IH; intros; apply Hf; by right). done.
Qed.

Lemma js_repeat_run (s : jsstring) (count : Z) (w : World) :
  0 ≤ count →
  js_repeat s count w = (Normal (mjoin (replicate (Z.to_nat count) s)), w).
Proof.
  intros Hc. unfold js_repeat. by destruct (Z.ltb_spec count 0); [lia|].
Qed.

Lemma js_repeat_throw (s : jsstring) (count : Z) (w : World) :
  count < 0 → js_repeat s count w = (Throw RangeError, w).
Proof.
  intros Hc. unfold js_repeat. by destruct (Z.ltb_spec count 0); [|lia].
Qed.

Lemma leaderboard_row_run (num_days : Z) (im : nat * MemberStats) (w : World) :
  0 ≤ Stats.stars im.2 ≤ num_days * 2 →
  leaderboard_row num_days im w
  = (Normal tt, logged [leaderboard_row_text num_days im] w).
Proof.
  destruct im as [i m]. simpl. intros Hs. unfold leaderboard_row.
  erewrite bind_normal by (apply js_repeat_run; lia).
  erewrite bind_normal by (apply js_repeat_run; lia).
  apply console_log_run.
Qed.

Lemma indexed_elem {A} (l : list A) (i : nat) (x : A) :
  (i, x) ∈ indexed l → x ∈ l.
Proof.
  unfold indexed. intros Hin. apply list_elem_of_lookup in Hin as [j Hj].
  rewrite list_lookup_imap in Hj.
  destruct (l !! j) as [y|] eqn:Hy; simplify_eq/=.
  by eapply list_elem_of_lookup_2.
Qed.

Lemma leaderboard_table_run (num_days : Z) (memberStats : list MemberStats)
    (w : World) :
  (∀ m, m ∈ memberStats → 0 ≤ Stats.stars m ≤ num_days * 2) →
  leaderboard_table num_days memberStats w
  = (Normal tt, logged (leaderboard_lines num_days memberStats) w).
Proof.
  intros Hs. unfold leaderboard_table, leaderboard_lines, leaderboard_head.
  do 5 (erewrite bind_normal by apply console_log_run).
  erewrite bind_normal.
  2:{ apply (js_for_run _ (λ im, [leaderboard_row_text num_days im])).
      intros [i m] w' Him. apply leaderboard_row_run.
      apply Hs. by eapply indexed_elem. }
  rewrite console_log_run, !logged_app, mjoin_singletons. done.
Qed.

(** ** The per-day tables *)

Lemma day_averages_lookup (memberStats : list MemberStats) (num_days d : Z) :
  day_averages memberStats num_days !! d =
  if decide (1 ≤ d ≤ num_days) then Some (day_average memberStats d) else None.
Proof.
  unfold day_averages.
  assert (∀ days (avgs : gmap Z DayAverage),
    foldl (λ avgs day, <[day := day_average memberStats day]> avgs) avgs days
      !! d
    = if decide (d ∈ days) then Some (day_average memberStats d)
      else avgs !! d) as Hfold.
  { induction days as [|d' days IH]; intros avgs; cbn [foldl].
    { by rewrite decide_False by apply not_elem_of_nil. }
    rewrite IH. destruct (decide (d ∈ days)) as [Hin|Hnin].
    - by rewrite (decide_True (P := d ∈ d' :: days)) by (by right).
    - destruct (decide (d = d')) as [<-|Hne].
      + rewrite (decide_True (P := d ∈ d :: days)) by left.
        by rewrite lookup_insert_eq.
      + rewrite (decide_False (P := d ∈ d' :: days))
          by (rewrite elem_of_cons; tauto).
        by rewrite lookup_insert_ne. }
  rewrite Hfold, lookup_empty.
  destruct (decide (1 ≤ d ≤ num_days)) as [Hd|Hd].
  - by rewrite decide_True by (by apply days_of_elem).
  - rewrite decide_False; [done|]. by rewrite days_of_elem.
Qed.

Lemma day_table_run (memberStats : list MemberStats) (num_days day : Z)
    (w : World) :
  1 ≤ day ≤ num_days →
  day_table memberStats (day_averages memberStats num_days) day w
  = (Normal tt, logged (day_table_lines memberStats day) w).
Proof.
  intros Hday. unfold day_table, day_table_lines.
  destruct (decide (length (day_completions memberStats day) = 0%nat)).
  { by rewrite logged_nil. }
  erewrite bind_normal by apply js_for_console_log.
  erewrite bind_normal by apply (js_for_log day_row).
  erewrite bind_normal by apply console_log_run.
  rewrite day_averages_lookup, decide_True by done.
  erewrite bind_normal by done.
  by rewrite js_for_console_log, !logged_app.
Qed.

Global Instance by_part1_total :
  Total (before (λ a b : DayCompletion, DayRow.p1 a - DayRow.p1 b)).
Proof. intros a b. unfold before. lia. Qed.

Global Instance by_part1_transitive :
  Transitive (before (λ a b : DayCompletion, DayRow.p1 a - DayRow.p1 b)).
Proof. intros a b c. unfold before. lia. Qed.


Lemma day_row_not_top (ic : nat * DayCompletion) : day_row ic ≠ day_table_top.
Proof.
  destruct ic as [i c]. unfold day_row, day_table_top.
  generalize (padStart 4 (toString (Z.of_nat i + 1))),
    (padEnd 24 (slice0 24 (DayRow.name c))),
    (padStart 11 (formatDuration (DayRow.p1 c))), (dash_or_duration (DayRow.p2 c)).
  intros r1 r2 r3 r4. vm_compute. discriminate.
Qed.

Lemma day_header_tops (day : Z) :
  filter (λ l, l = day_table_top) (day_header day) = [day_table_top].
Proof.
  unfold day_header, day_table_top.
  generalize (padEnd 54 (toString day)). intros t.
  rewrite !filter_cons, filter_nil.
  rewrite decide_False by (vm_compute; discriminate).
  rewrite decide_True by done.
  by rewrite !decide_False by (vm_compute; discriminate).
Qed.

Lemma day_footer_tops (avg : DayAverage) :
  filter (λ l, l = day_table_top) (day_footer avg) = [].
Proof.
  unfold day_footer, day_table_top.
  generalize (dash_or_duration (avgP1 avg)), (dash_or_duration (avgP2 avg)).
  intros a1 a2. rewrite !filter_cons, filter_nil.
  by rewrite !decide_False by (vm_compute; discriminate).
Qed.

Lemma day_rows_tops (rows : list (nat * DayCompletion)) :
  filter (λ l, l = day_table_top) (day_row <$> rows) = [].
Proof.
  induction rows as [|ic rows IH]; simpl; [done|].
  rewrite filter_cons, decide_False by apply day_row_not_top. done.
Qed.



(** ** Object.values *)



Lemma entries_split {V} (o : JsObject V) :
  (snd <$> index_entries o) ++ (snd <$> named_entries o) ≡ₚ o.*2.
Proof.
  unfold index_entries, named_entries.
  induction o as [|[k v] o IH]; [done|].
  rewrite filter_cons.
  destruct (decide (array_index (k, v).1 = None)) as [Hk|Hk]; simpl in Hk.
  - csimpl. rewrite Hk. csimpl. by rewrite <-Permutation_middle, IH.
  - csimpl. destruct (array_index k) as [n|]; [|done]. csimpl. by rewrite IH.
Qed.

Lemma Object_values_all {V} (o : JsObject V) : Object_values o ≡ₚ o.*2.
Proof.
  unfold Object_values. by rewrite Array_sort_Permutation, entries_split.
Qed.


Global Instance by_index_total {V} :
  Total (before (λ a b : N * V, Z.of_N a.1 - Z.of_N b.1)).
Proof. intros a b. unfold before. lia. Qed.

Global Instance by_index_transitive {V} :
  Transitive (before (λ a b : N * V, Z.of_N a.1 - Z.of_N b.1)).
Proof. intros a b c. unfold before. lia. Qed.


(** ** The overall order *)

Lemma StronglySorted_lookup_lt {A} (R : relation A) (l : list A)
    (i j : nat) (a b : A) :
  StronglySorted R l → l !! i = Some a → l !! j = Some b → (i < j)%nat → R a b.
Proof.
  intros Hl. revert i j. induction Hl as [|x l Hl IH Hx]; intros i j Hi Hj Hij.
  { done. }
  destruct j as [|j]; [lia|]. destruct i as [|i]; simpl in *.
  - simplify_eq. rewrite Forall_forall in Hx. apply Hx.
    by eapply list_elem_of_lookup_2.
  - apply (IH i j); [done..|lia].
Qed.


Global Instance key3_le_antisymm : AntiSymm (=) key3_le.
Proof.
  intros [[s1 t1] u1] [[s2 t2] u2]. unfold key3_le. intros H1 H2.
  f_equal; [f_equal|]; lia.
Qed.

(** ** The overall order and the order of the document *)




(** ** Runs of the script *)

Lemma fetch_run (env : Env) (r : Response) (w : World) :
  network env (leaderboard_url env) = Fulfilled r →
  fetch env (leaderboard_url env) w
  = (Normal r, {| stdout := stdout w; stderr := stderr w;
                  requests := requests w ++ [leaderboard_url env] |}).
Proof. intros Hnet. unfold fetch. by rewrite Hnet. Qed.

(** The run up to the check of the response. *)
Lemma main_after_fetch (env : Env) (r : Response) (k : Response → Js unit) :
  network env (leaderboard_url env) = Fulfilled r →
  (console_log fetching_line;; response ← fetch env (leaderboard_url env);
   k response) initial_world
  = k r (after_request env [fetching_line] []).
Proof.
  intros Hnet.
  erewrite bind_normal by apply console_log_run.
  erewrite bind_normal by (by apply fetch_run). done.
Qed.

Lemma main_not_ok (env : Env) (r : Response) :
  network env (leaderboard_url env) = Fulfilled r → ok r = false →
  main env initial_world
  = (Exit 1, after_request env [fetching_line] [fetch_failure r]).
Proof.
  intros Hnet Hok. unfold main.
  rewrite (main_after_fetch env r) by done.
  rewrite Hok. cbn [negb].
  erewrite bind_exit; [reflexivity|]. reflexivity.
Qed.

Lemma main_ok (env : Env) (r : Response) (k : Js unit) :
  ok r = true →
  ((if negb (ok r) then
      console_error (fetch_failure r);; process_exit 1
    else mret tt : Js unit);; k) (after_request env [fetching_line] [])
  = k (after_request env [fetching_line] []).
Proof.
  intros Hok. rewrite Hok. simpl.
  by erewrite bind_normal.
Qed.

Lemma main_not_json (env : Env) (r : Response) :
  network env (leaderboard_url env) = Fulfilled r → ok r = true →
  body r = None →
  main env initial_world
  = (Throw SyntaxError, after_request env [fetching_line] []).
Proof.
  intros Hnet Hok Hbody. unfold main.
  rewrite (main_after_fetch env r), (main_ok env r) by done.
  erewrite bind_throw; [done|]. unfold response_json. by rewrite Hbody.
Qed.

Lemma main_no_members (env : Env) (r : Response) (data : LeaderboardData) :
  network env (leaderboard_url env) = Fulfilled r → ok r = true →
  body r = Some data → members data = None →
  main env initial_world
  = (Throw TypeError, after_request env [fetching_line] []).
Proof.
  intros Hnet Hok Hbody Hmem. unfold main.
  rewrite (main_after_fetch env r), (main_ok env r) by done.
  erewrite bind_normal by (unfold response_json; by rewrite Hbody).
  erewrite bind_throw; [done|]. by rewrite Hmem.
Qed.

Lemma stats_of_stars (num_days : Z) (l : list Member) (s : MemberStats) :
  s ∈ stats_of num_days <$> l → ∃ m, m ∈ l ∧ Stats.stars s = stars m.
Proof.
  intros Hs. apply list_elem_of_fmap in Hs as (m & -> & Hm). by exists m.
Qed.

(** A document whose members are all renderable is rendered in full. *)
Lemma main_renders (env : Env) (r : Response) (data : LeaderboardData)
    (object : JsObject Member) :
  network env (leaderboard_url env) = Fulfilled r → ok r = true →
  body r = Some data → members data = Some object →
  (∀ m, m ∈ object.*2 → renderable (num_days data) m) →
  main env initial_world
  = (Normal tt, after_request env (rendering data object) []).
Proof.
  intros Hnet Hok Hbody Hmem Hren. unfold main.
  rewrite (main_after_fetch env r), (main_ok env r) by done.
  erewrite bind_normal by (unfold response_json; by rewrite Hbody).
  erewrite bind_normal by (by rewrite Hmem).
  set (ranked := Array_sort compare_members (Object_values object)).
  assert (∀ m, m ∈ ranked → renderable (num_days data) m) as Hranked.
  { intros m Hm. apply Hren. subst ranked.
    by rewrite Array_sort_Permutation, Object_values_all in Hm. }
  erewrite bind_normal by apply console_log_run.
  erewrite bind_normal.
  2:{ apply (js_mapM_run _ (stats_of (num_days data))).
      intros m w Hm. apply member_stats_run. by apply Hranked. }
  erewrite bind_normal.
  2:{ apply leaderboard_table_run. intros s Hs.
      apply stats_of_stars in Hs as (m & Hm & ->). by apply Hranked. }
  erewrite js_for_run.
  2:{ intros day w Hday. apply day_table_run. by apply days_of_elem. }
  rewrite !logged_app. unfold logged, after_request, rendering. simpl.
  fold ranked. by rewrite <-!app_assoc.
Qed.

Lemma script_of_main (env : Env) (c : Completion unit) (w : World) :
  main env initial_world = (c, w) →
  script env =
  match c with
  | Normal _ => (w, 0)
  | Throw e => ({| stdout := stdout w; stderr := stderr w ++ [LogError e];
                   requests := requests w |}, 0)
  | Exit code => (w, code)
  end.
Proof. intros Hmain. unfold script. rewrite Hmain. by destruct c. Qed.

(** C8: when the response is not a success the script reports the status
    and the status text on the error stream and exits with code 1, having
    logged only the line that precedes the request (no table) and having
    made one request; a run whose [main] returns exits with code 0, and a
    renderable document is rendered in full with exit code 0. *)
Theorem fetch_failure_is_fatal (env : Env) (r : Response) :
  network env (leaderboard_url env) = Fulfilled r →
  (ok r = false →
     script env
     = (after_request env [fetching_line]
          [LogText (utf16 "Failed to fetch: " ++ toString (status r)
                    ++ utf16 " " ++ statusText r)], 1))
  ∧ (∀ w, main env initial_world = (Normal tt, w) → script env = (w, 0))
  ∧ (ok r = true → ∀ data object,
       body r = Some data → members data = Some object →
       (∀ m, m ∈ object.*2 → renderable (num_days data) m) →
       script env = (after_request env (rendering data object) [], 0)).
Proof.
  intros Hnet. split_and!.
  - intros Hok. by rewrite (script_of_main env _ _ (main_not_ok env r Hnet Hok)).
  - intros w Hmain. by rewrite (script_of_main env _ _ Hmain).
  - intros Hok data object Hbody Hmem Hren.
    by rewrite (script_of_main env _ _
                  (main_renders env r data object Hnet Hok Hbody Hmem Hren)).
Qed.

Lemma fetch_failure_is_fatal_witness :
  (script (env_answering not_found)).2 = 1
  ∧ stdout (script (env_answering not_found)).1 = [fetching_line]
  ∧ length (requests (script (env_answering not_found)).1) = 1%nat.
Proof.
  destruct (fetch_failure_is_fatal (env_answering not_found) not_found)
    as (Hfail & _); [reflexivity|].
  rewrite Hfail by reflexivity. repeat split.
Defined.

(** C10: once the request has succeeded, an exception of any later step
    of [main] is caught by the handler of the last line, which prints the
    error on the error stream and nothing else; the process then ends with
    exit code 0, the exit code of a run that rendered.  A body that is not
    valid JSON, and a document without [members], are two such cases. *)
Theorem exception_after_fetch_exits_zero (env : Env) (r : Response) :
  network env (leaderboard_url env) = Fulfilled r → ok r = true →
  (∀ e w, main env initial_world = (Throw e, w) →
     script env
     = ({| stdout := stdout w; stderr := stderr w ++ [LogError e];
           requests := requests w |}, 0))
  ∧ (body r = None →
     script env
     = (after_request env [fetching_line] [LogError SyntaxError], 0))
  ∧ (∀ data, body r = Some data → members data = None →
     script env
     = (after_request env [fetching_line] [LogError TypeError], 0))
  ∧ (∀ w, main env initial_world = (Normal tt, w) → (script env).2 = 0).
Proof.
  intros Hnet Hok. split_and!.
  - intros e w Hmain. by rewrite (script_of_main env _ _ Hmain).
  - intros Hbody.
    by rewrite (script_of_main env _ _ (main_not_json env r Hnet Hok Hbody)).
  - intros data Hbody Hmem.
    by rewrite (script_of_main env _ _
                  (main_no_members env r data Hnet Hok Hbody Hmem)).
  - intros w Hmain. by rewrite (script_of_main env _ _ Hmain).
Qed.

Lemma exception_after_fetch_exits_zero_witness :
  script (env_answering not_json)
  = (after_request (env_answering not_json) [fetching_line]
       [LogError SyntaxError], 0).
Proof.
  destruct (exception_after_fetch_exits_zero (env_answering not_json) not_json)
    as (_ & Hjson & _); [reflexivity..|].
  apply Hjson. reflexivity.
Defined.

(** An exception in the middle of the overall table: the head of the table
    is already on the output when ['☆'.repeat] throws, and the exit code
    is 0. *)
Lemma range_error_after_table_head :
  let run := script (env_of (snapshot_of [(utf16 "9", overstarred)] 1)) in
  run.2 = 0
  ∧ stderr run.1 = [LogError RangeError]
  ∧ drop 2 (stdout run.1) = leaderboard_head.
Proof. by vm_compute. Qed.

(** C2: the comparator of the overall table puts the higher score first,
    then the higher star count, then the earlier last star; it is a total
    preorder (total, transitive, reflexive), and the ranking is the members
    of the document sorted by it: a member that ranks above another stands
    before it, and the rows of the overall table of a rendered document
    are the rows of the ranking, in its order. *)
Theorem overall_order_three_keys (object : JsObject Member) :
  let ranked := Array_sort compare_members (Object_values object) in
  (∀ a b, compare_members a b < 0 ↔ ranks_above a b)
  ∧ (∀ a b, compare_members a b = 0 ↔ key3 a = key3 b)
  ∧ (∀ a b, compare_members b a = - compare_members a b)
  ∧ (∀ a b, before compare_members a b ∨ before compare_members b a)
  ∧ (∀ a b c, before compare_members a b → before compare_members b c →
              before compare_members a c)
  ∧ (∀ a, before compare_members a a)
  ∧ ranked ≡ₚ object.*2
  ∧ StronglySorted (before compare_members) ranked
  ∧ (∀ i j a b, ranked !! i = Some a → ranked !! j = Some b →
                ranks_above a b → (i < j)%nat)
  ∧ (∀ env r data,
       network env (leaderboard_url env) = Fulfilled r → ok r = true →
       body r = Some data → members data = Some object →
       (∀ m, m ∈ object.*2 → renderable (num_days data) m) →
       ∃ summary rest,
         stdout (main env initial_world).2
         = [fetching_line; summary]
           ++ leaderboard_head
           ++ (leaderboard_row_text (num_days data)
                 <$> indexed (stats_of (num_days data) <$> ranked))
           ++ rest).
Proof.
  intros ranked. split_and!.
  - apply compare_members_lex.
  - apply compare_members_zero.
  - apply compare_members_flip.
  - apply compare_members_total.
  - apply compare_members_trans.
  - intros a. unfold before. by rewrite (proj2 (compare_members_zero a a)).
  - subst ranked. by rewrite Array_sort_Permutation, Object_values_all.
  - apply Array_sort_sorted; apply _.
  - intros i j a b Hi Hj Hab. apply compare_members_lex in Hab.
    destruct (decide (i < j)%nat) as [|Hge]; [done|]. exfalso.
    destruct (decide (i = j)) as [->|Hne].
    + assert (a = b) as -> by congruence.
      rewrite (proj2 (compare_members_zero b b)) in Hab; [lia|done].
    + assert (before compare_members b a) as Hba.
      { eapply (StronglySorted_lookup_lt _ ranked j i); [|done..|lia].
        apply Array_sort_sorted; apply _. }
      unfold before in Hba. rewrite compare_members_flip in Hba. lia.
  - intros env r data Hnet Hok Hbody Hmem Hren.
    rewrite (main_renders env r data object) by done.
    eexists _, _. unfold after_request, rendering, leaderboard_lines.
    cbn [snd stdout]. fold ranked. rewrite <-!app_assoc. reflexivity.
Qed.

Lemma overall_order_three_keys_witness :
  Array_sort compare_members (Object_values members_ann_bob) !! 0%nat
  = Some tied_ann
  ∧ ¬ ranks_above tied_bob tied_ann.
Proof.
  split; [by vm_compute|].
  intros Habove.
  destruct (overall_order_three_keys members_ann_bob)
    as (_ & _ & _ & _ & _ & _ & _ & _ & Hpos & _).
  pose proof (Hpos 1%nat 0%nat tied_bob tied_ann
                ltac:(vm_compute; reflexivity) ltac:(vm_compute; reflexivity)
                Habove).
  lia.
Defined.

(** * Further properties *)

(** ** parseArgs *)

Lemma is_prefix_spec (p s : jsstring) :
  is_prefix p s = true ↔ ∃ r, s = p ++ r.
Proof.
  revert s. induction p as [|a p IH]; intros s; simpl.
  { split; [by exists s|done]. }
  destruct s as [|b s].
  { split; [done|]. by intros [r Hr]. }
  destruct (decide (a = b)) as [<-|Hne].
  - rewrite IH. split; intros [r Hr]; exists r; [by rewrite Hr|by simplify_eq].
  - split; [done|]. intros [r Hr]. by simplify_eq.
Qed.

Lemma take_digits_spec (s : jsstring) :
  ∃ rest, s = take_digits s ++ rest
          ∧ Forall (λ u, is_digit u = true) (take_digits s)
          ∧ ∀ u, head rest = Some u → is_digit u = false.
Proof.
  induction s as [|u s (rest & Hs & Hd & Hrest)]; simpl.
  { exists []. by split_and!. }
  destruct (is_digit u) eqn:Hu.
  - exists rest. split_and!; [by simpl; f_equal|by constructor|done].
  - exists (u :: s). split_and!; [done|constructor|]. by intros ? [= <-].
Qed.

Lemma match_digits_after_Some (lit path id : jsstring) :
  match_digits_after lit path = Some id →
  id ≠ [] ∧ Forall (λ u, is_digit u = true) id
  ∧ ∃ pre post, path = pre ++ lit ++ id ++ post
                ∧ ∀ u, head post = Some u → is_digit u = false.
Proof.
  induction path as [|c path IH]; cbn [match_digits_after].
  - rewrite drop_nil. by destruct (is_prefix lit []).
  - destruct (is_prefix lit (c :: path)) eqn:Hp.
    + apply is_prefix_spec in Hp as [r Hr]. rewrite Hr, drop_app_length.
      destruct (take_digits_spec r) as (rest & Hsplit & Hd & Hrest).
      destruct (take_digits r) as [|d ds] eqn:Htake.
      * rewrite <-Hr. intros Hm.
        destruct (IH Hm) as (? & ? & pre & post & -> & ?).
        split_and!; [done..|]. by exists (c :: pre), post.
      * intros [= <-]. split_and!; [done..|].
        exists [], rest. subst r. by rewrite app_nil_l.
    + intros Hm. destruct (IH Hm) as (? & ? & pre & post & -> & ?).
      split_and!; [done..|]. by exists (c :: pre), post.
Qed.

Lemma match_digits_after_None (lit path : jsstring) :
  match_digits_after lit path = None →
  ∀ pre d post, is_digit d = true → path ≠ pre ++ lit ++ d :: post.
Proof.
  intros Hm pre d post Hd. revert path Hm.
  induction pre as [|c pre IH]; intros path Hm Hpath.
  - rewrite app_nil_l in Hpath.
    assert (is_prefix lit path = true) as Hp
      by (apply is_prefix_spec; by exists (d :: post)).
    destruct path as [|c path]; cbn [match_digits_after] in Hm;
      rewrite Hp, Hpath, drop_app_length in Hm; cbn [take_digits] in Hm;
      by rewrite Hd in Hm.
  - destruct path as [|c' path]; [done|]. injection Hpath as -> Hpath.
    cbn [match_digits_after] in Hm.
    destruct (if is_prefix lit (c :: path) then _ else _); [|done].
    exact (IH path Hm Hpath).
Qed.

Lemma report_run (lines : list jsstring) (w : World) :
  report lines w = (Normal tt, reported lines w).
Proof.
  unfold report. revert w. induction lines as [|l lines IH]; intros w; simpl.
  { unfold reported. simpl. rewrite app_nil_r. by destruct w. }
  erewrite bind_normal by done. rewrite IH. unfold reported. simpl.
  by rewrite <-app_assoc.
Qed.

Lemma nonempty_Some (x : option jsstring) :
  nonempty x = true → ∃ s, x = Some s ∧ s ≠ [] ∧ default [] x = s.
Proof. destruct x as [[|u s]|]; [done| |done]. intros _. by eexists. Qed.

Lemma parseArgs_url_run (host : Host) (arg : jsstring) (w : World) :
  parseArgs_url host arg w =
  match new_URL host arg with
  | None => (Throw TypeError, w)
  | Some url =>
    let leaderboardId := match_view (pathname url) in
    let viewKey := get (searchParams url) (utf16 "view_key") in
    if negb (nonempty leaderboardId) || negb (nonempty viewKey)
    then (Exit 1, reported invalid_url_lines w)
    else (Normal (default [] leaderboardId, default [] viewKey), w)
  end.
Proof.
  unfold parseArgs_url. destruct (new_URL host arg) as [url|].
  - erewrite bind_normal by done. cbv zeta.
    destruct (_ || _); [|done].
    by erewrite bind_normal by apply report_run.
  - by erewrite bind_throw.
Qed.

Lemma parseArgs_rest_run (host : Host) (args : list jsstring) (w : World) :
  parseArgs_rest host args w =
  if nonempty (args !! 0%nat) && nonempty (args !! 1%nat)
  then (Normal (default [] (args !! 0%nat), default [] (args !! 1%nat)), w)
  else
    let leaderboardId := get (environ host) ID_VAR in
    let viewKey := get (environ host) KEY_VAR in
    if negb (nonempty leaderboardId) || negb (nonempty viewKey)
    then (Exit 1, reported usage_lines w)
    else (Normal (default [] leaderboardId, default [] viewKey), w).
Proof.
  unfold parseArgs_rest, ID_VAR, KEY_VAR. destruct (_ && _); [done|].
  cbv zeta. destruct (_ || _); [|done].
  by erewrite bind_normal by apply report_run.
Qed.

(** [parseArgs] returns without a trace, and otherwise only reports. *)
Lemma parseArgs_quiet (host : Host) (w w' : World)
    (c : Completion (jsstring * jsstring)) :
  parseArgs host w = (c, w') →
  stdout w' = stdout w ∧ requests w' = requests w
  ∧ (∀ config, c = Normal config → w' = w).
Proof.
  unfold parseArgs.
  assert (∀ args, parseArgs_rest host args w = (c, w') →
    stdout w' = stdout w ∧ requests w' = requests w
    ∧ (∀ config, c = Normal config → w' = w)) as Hrest.
  { intros args. rewrite parseArgs_rest_run.
    destruct (_ && _); [by intros [= <- <-]|]. cbv zeta.
    destruct (_ || _); by intros [= <- <-]. }
  destruct (drop 2 (argv host) !! 0%nat) as [arg|]; [|apply Hrest].
  destruct (includes arg DOMAIN); [|apply Hrest].
  rewrite parseArgs_url_run. destruct (new_URL host arg) as [url|].
  - cbv zeta. destruct (_ || _); by intros [= <- <-].
  - by intros [= <- <-].
Qed.

Lemma program_of_parseArgs (host : Host)
    (c : Completion (jsstring * jsstring)) (w : World) :
  parseArgs host initial_world = (c, w) →
  program host =
  match c with
  | Normal config => script (env_from host config)
  | Throw e => ({| stdout := stdout w; stderr := stderr w ++ [LogError e];
                   requests := requests w |}, 1)
  | Exit code => (w, code)
  end.
Proof.
  intros Hparse. unfold program. rewrite Hparse. destruct c as [config| |]; try done.
  destruct (parseArgs_quiet _ _ _ _ Hparse) as (_ & _ & Hw).
  by rewrite (Hw config eq_refl).
Qed.

(** X1: Without a URL argument, without two positional arguments and without
    both environment variables (a missing or an empty value counts as
    absent), the script prints the nine usage lines on the error stream
    and exits with code 1: nothing is logged and no request is made. *)
Theorem usage_error_before_any_request (host : Host) :
  let args := drop 2 (argv host) in
  (∀ arg, args !! 0%nat = Some arg → includes arg DOMAIN = false) →
  nonempty (args !! 0%nat) && nonempty (args !! 1%nat) = false →
  nonempty (get (environ host) ID_VAR)
    && nonempty (get (environ host) KEY_VAR) = false →
  program host
  = ({| stdout := []; stderr := LogText <$> usage_lines; requests := [] |}, 1).
Proof.
  intros args Hurl Hpos Hvars.
  assert (parseArgs host initial_world
          = (Exit 1, reported usage_lines initial_world)) as Hparse.
  { unfold parseArgs. fold args.
    assert (parseArgs_rest host args initial_world
            = (Exit 1, reported usage_lines initial_world)) as Hrest.
    { rewrite parseArgs_rest_run, Hpos. cbv zeta.
      destruct (nonempty (get (environ host) ID_VAR));
        destruct (nonempty (get (environ host) KEY_VAR)); done. }
    destruct (args !! 0%nat) as [arg|]; [|done].
    by rewrite (Hurl arg eq_refl). }
  by rewrite (program_of_parseArgs host _ _ Hparse).
Qed.

Lemma usage_error_before_any_request_witness :
  (program (host_with [utf16 "12345"]
              [(utf16 "ADVENT_OF_CODE_LEADERBOARD_ID", utf16 "777")] None)).2
  = 1.
Proof.
  rewrite (usage_error_before_any_request
             (host_with [utf16 "12345"]
                [(utf16 "ADVENT_OF_CODE_LEADERBOARD_ID", utf16 "777")] None)).
  - reflexivity.
  - intros arg [= <-]. vm_compute. reflexivity.
  - vm_compute. reflexivity.
  - vm_compute. reflexivity.
Defined.

(** X2: With a URL argument that the platform parses, [parseArgs] returns
    exactly when the path has a digit after [/leaderboard/private/view/]
    and the query has a non-empty [view_key]; it then prints nothing, the
    key is the first [view_key] of the query, and the leaderboard id is a
    non-empty run of digits that stands in the path right after that
    literal and is not followed by a further digit. *)
Theorem url_argument_yields_numeric_id (host : Host) (arg : jsstring)
    (url : Url) (w : World) :
  drop 2 (argv host) !! 0%nat = Some arg → includes arg DOMAIN = true →
  new_URL host arg = Some url →
  ∀ (leaderboardId viewKey : jsstring) w',
    parseArgs host w = (Normal (leaderboardId, viewKey), w') ↔
    w' = w
    ∧ match_view (pathname url) = Some leaderboardId
    ∧ get (searchParams url) (utf16 "view_key") = Some viewKey
    ∧ viewKey ≠ []
    ∧ leaderboardId ≠ []
    ∧ Forall (λ u, is_digit u = true) leaderboardId
    ∧ ∃ pre post,
        pathname url = pre ++ VIEW_PATH ++ leaderboardId ++ post
        ∧ ∀ u, head post = Some u → is_digit u = false.
Proof.
  intros Harg Hinc Hurl leaderboardId viewKey w'.
  unfold parseArgs. rewrite Harg, Hinc, parseArgs_url_run, Hurl. cbv zeta.
  destruct (match_view (pathname url)) as [id|] eqn:Hid; simpl.
  2:{ split; [done|]. by intros (_ & ? & _). }
  destruct (match_digits_after_Some _ _ _ Hid) as (Hne & Hdig & Hplace).
  destruct id as [|i id]; [done|]. simpl.
  destruct (get (searchParams url) (utf16 "view_key")) as [[|k key]|]; simpl.
  - split; [done|]. by intros (_ & _ & [= <-] & ? & _).
  - split.
    + intros [= <- <- <-]. by split_and!.
    + by intros (-> & [= <-] & [= <-] & _).
  - split; [done|]. by intros (_ & _ & ? & _).
Qed.

Lemma url_argument_yields_numeric_id_witness :
  parseArgs (host_with [sample_url] [] (Some sample_parsed)) initial_world
  = (Normal (utf16 "12345", utf16 "abc123"), initial_world).
Proof.
  apply (url_argument_yields_numeric_id
           (host_with [sample_url] [] (Some sample_parsed)) sample_url
           sample_parsed initial_world);
    [reflexivity|vm_compute; reflexivity|reflexivity|].
  split_and!; try (vm_compute; reflexivity); try (vm_compute; discriminate).
  - vm_compute. repeat constructor.
  - exists (utf16 "/2025"), []. split; [vm_compute; reflexivity|]. intros u [=].
Defined.

(** X3: A first argument that mentions [adventofcode.com] is never read as a
    leaderboard id and never falls back to the other arguments or to the
    environment: when the platform cannot parse it, the exception ends the
    process with code 1; when the path has no digit after
    [/leaderboard/private/view/] or the query has no non-empty [view_key],
    the two lines on the expected format are reported and the exit code
    is 1.  In both cases nothing is logged and no request is made. *)
Theorem invalid_url_is_fatal (host : Host) (arg : jsstring) :
  drop 2 (argv host) !! 0%nat = Some arg → includes arg DOMAIN = true →
  (new_URL host arg = None →
     program host
     = ({| stdout := []; stderr := [LogError TypeError]; requests := [] |}, 1))
  ∧ (∀ url, new_URL host arg = Some url →
       (∀ pre d post, is_digit d = true →
          pathname url ≠ pre ++ VIEW_PATH ++ d :: post)
       ∨ nonempty (get (searchParams url) (utf16 "view_key")) = false →
       program host
       = ({| stdout := []; stderr := LogText <$> invalid_url_lines;
             requests := [] |}, 1)).
Proof.
  intros Harg Hinc. split.
  - intros Hurl.
    assert (parseArgs host initial_world = (Throw TypeError, initial_world))
      as Hparse
      by (unfold parseArgs; by rewrite Harg, Hinc, parseArgs_url_run, Hurl).
    by rewrite (program_of_parseArgs host _ _ Hparse).
  - intros url Hurl Hbad.
    assert (parseArgs host initial_world
            = (Exit 1, reported invalid_url_lines initial_world)) as Hparse.
    { unfold parseArgs. rewrite Harg, Hinc, parseArgs_url_run, Hurl. cbv zeta.
      destruct Hbad as [Hpath|Hkey].
      - destruct (match_view (pathname url)) as [id|] eqn:Hid; [|done].
        destruct (match_digits_after_Some _ _ _ Hid)
          as (Hne & Hdig & pre & post & Hplace & _).
        destruct id as [|d id]; [done|]. apply Forall_cons in Hdig as [Hd _].
        destruct (Hpath pre d (id ++ post) Hd). by rewrite Hplace.
      - rewrite Hkey. by rewrite orb_true_r. }
    by rewrite (program_of_parseArgs host _ _ Hparse).
Qed.

Lemma invalid_url_is_fatal_witness :
  (program (host_with [utf16 "adventofcode.com"; utf16 "abc123"] sample_vars
              None)).2 = 1.
Proof.
  destruct (invalid_url_is_fatal
              (host_with [utf16 "adventofcode.com"; utf16 "abc123"]
                 sample_vars None) (utf16 "adventofcode.com"))
    as [Hthrow _]; [reflexivity|vm_compute; reflexivity|].
  rewrite Hthrow; reflexivity.
Defined.

(** X4: Two non-empty positional arguments (the first not mentioning
    [adventofcode.com]) are the leaderboard id and the view key, whatever
    the environment holds; with fewer, the arguments are ignored and the
    two environment variables, both non-empty, are used.  Nothing is
    printed in either case. *)
Theorem arguments_precede_environment (host : Host) (w : World) :
  let args := drop 2 (argv host) in
  (∀ arg, args !! 0%nat = Some arg → includes arg DOMAIN = false) →
  (∀ a0 a1 : jsstring, args !! 0%nat = Some a0 → args !! 1%nat = Some a1 →
     a0 ≠ [] → a1 ≠ [] →
     parseArgs host w = (Normal (a0, a1), w))
  ∧ (∀ id key : jsstring,
     nonempty (args !! 0%nat) && nonempty (args !! 1%nat) = false →
     get (environ host) ID_VAR = Some id →
     get (environ host) KEY_VAR = Some key → id ≠ [] → key ≠ [] →
     parseArgs host w = (Normal (id, key), w)).
Proof.
  intros args Hurl.
  assert (parseArgs host w = parseArgs_rest host args w) as ->.
  { unfold parseArgs. fold args. destruct (args !! 0%nat) as [arg|]; [|done].
    by rewrite (Hurl arg eq_refl). }
  rewrite parseArgs_rest_run. split.
  - intros a0 a1 Ha0 Ha1 H0 H1. subst args. unfold jsstring in *.
    rewrite Ha0, Ha1.
    destruct a0; [by destruct H0|]. destruct a1; [by destruct H1|]. done.
  - intros id key Hargs Hi Hk Hid Hkey. subst args. unfold jsstring in *.
    rewrite Hargs, Hi, Hk. cbv zeta.
    destruct id; [by destruct Hid|]. destruct key; [by destruct Hkey|]. done.
Qed.

Lemma arguments_precede_environment_witness :
  parseArgs (host_with [utf16 "12345"; utf16 "abc123"] sample_vars None)
    initial_world
  = (Normal (utf16 "12345", utf16 "abc123"), initial_world)
  ∧ parseArgs (host_with [utf16 "12345"] sample_vars None) initial_world
    = (Normal (utf16 "777", utf16 "envkey"), initial_world).
Proof.
  split.
  - destruct (arguments_precede_environment
                (host_with [utf16 "12345"; utf16 "abc123"] sample_vars None)
                initial_world) as [Hpos _].
    { intros arg [= <-]. vm_compute. reflexivity. }
    apply Hpos; [reflexivity|reflexivity|vm_compute; discriminate..].
  - destruct (arguments_precede_environment
                (host_with [utf16 "12345"] sample_vars None) initial_world)
      as [_ Hvars].
    { intros arg [= <-]. vm_compute. reflexivity. }
    apply Hvars; [reflexivity|vm_compute; reflexivity..
                 |vm_compute; discriminate|vm_compute; discriminate].
Defined.

(** ** What main does besides logging *)

Lemma logs_only_ret {A} (a : A) : logs_only (mret a).
Proof. by intros w. Qed.

Lemma logs_only_throw {A} (e : JsError) : logs_only (@throw A e).
Proof. by intros w. Qed.

Lemma logs_only_console_log (s : jsstring) : logs_only (console_log s).
Proof. by intros w. Qed.

Lemma logs_only_defined {A} (x : option A) : logs_only (defined x).
Proof. by destruct x; intros w. Qed.

Lemma logs_only_bind {A B} (m : Js A) (f : A → Js B) :
  logs_only m → (∀ a, logs_only (f a)) → logs_only (m ≫= f).
Proof.
  intros Hm Hf w. specialize (Hm w). unfold mbind, Js_bind.
  destruct (m w) as [[a|e|code] w1]; simpl in *.
  - destruct Hm as (<- & <- & _). apply Hf.
  - by destruct Hm as (-> & -> & _).
  - destruct Hm as (_ & _ & Hexit). by destruct (Hexit code).
Qed.

Lemma logs_only_for {A} (l : list A) (body : A → Js unit) :
  (∀ x, logs_only (body x)) → logs_only (js_for l body).
Proof.
  intros Hbody. induction l as [|x l IH]; simpl.
  - apply logs_only_ret.
  - apply logs_only_bind; [apply Hbody|by intros _].
Qed.

Lemma logs_only_mapM {A B} (f : A → Js B) (l : list A) :
  (∀ x, logs_only (f x)) → logs_only (js_mapM f l).
Proof.
  intros Hf. induction l as [|x l IH]; simpl.
  - apply logs_only_ret.
  - apply logs_only_bind; [apply Hf|intros y].
    apply logs_only_bind; [apply IH|intros ys]. apply logs_only_ret.
Qed.

Lemma logs_only_foldM {A S} (f : S → A → Js S) (l : list A) (s : S) :
  (∀ s x, logs_only (f s x)) → logs_only (js_foldM f s l).
Proof.
  intros Hf. revert s. induction l as [|x l IH]; intros s; simpl.
  - apply logs_only_ret.
  - apply logs_only_bind; [apply Hf|apply IH].
Qed.

Lemma logs_only_member_stats (num_days : Z) (member : Member) :
  logs_only (member_stats num_days member).
Proof.
  unfold member_stats. apply logs_only_bind; [|intros; apply logs_only_ret].
  apply logs_only_foldM. intros times day. unfold record_day.
  apply logs_only_bind; [apply logs_only_defined|intros cdl].
  destruct (get cdl (toString day)); apply logs_only_ret.
Qed.

Lemma logs_only_repeat (s : jsstring) (count : Z) : logs_only (js_repeat s count).
Proof.
  unfold js_repeat. destruct (count <? 0);
    [apply logs_only_throw|apply logs_only_ret].
Qed.

Lemma logs_only_leaderboard_table (num_days : Z) (memberStats : list MemberStats) :
  logs_only (leaderboard_table num_days memberStats).
Proof.
  unfold leaderboard_table.
  repeat (apply logs_only_bind; [apply logs_only_console_log|intros _]).
  apply logs_only_bind; [|intros _; apply logs_only_console_log].
  apply logs_only_for. intros [i m]. unfold leaderboard_row.
  apply logs_only_bind; [apply logs_only_repeat|intros filled].
  apply logs_only_bind; [apply logs_only_repeat|intros hollow].
  apply logs_only_console_log.
Qed.

Lemma logs_only_day_table (memberStats : list MemberStats)
    (dayAverages : gmap Z DayAverage) (day : Z) :
  logs_only (day_table memberStats dayAverages day).
Proof.
  unfold day_table. destruct (decide _); [apply logs_only_ret|].
  apply logs_only_bind;
    [apply logs_only_for; intros; apply logs_only_console_log|intros _].
  apply logs_only_bind;
    [apply logs_only_for; intros; apply logs_only_console_log|intros _].
  apply logs_only_bind; [apply logs_only_console_log|intros _].
  apply logs_only_bind; [apply logs_only_defined|intros avg].
  apply logs_only_for; intros; apply logs_only_console_log.
Qed.

(** What follows the check of the response in [main] only logs. *)
Lemma logs_only_rendering (r : Response) :
  logs_only
    (data ← response_json r;
     object ← defined (members data);
     let members := Array_sort compare_members (Object_values object) in
     console_log (utf16 "Advent of Code " ++ event data ++ utf16 " · "
       ++ toString (Z.of_nat (length members)) ++ utf16 " members · "
       ++ toString (num_days data) ++ utf16 " days" ++ [NEWLINE]);;
     memberStats ← js_mapM (member_stats (num_days data)) members;
     let dayAverages := day_averages memberStats (num_days data) in
     leaderboard_table (num_days data) memberStats;;
     js_for (days_of (num_days data)) (day_table memberStats dayAverages)).
Proof.
  apply logs_only_bind.
  { unfold response_json. destruct (body r);
      [apply logs_only_ret|apply logs_only_throw]. }
  intros data. apply logs_only_bind; [apply logs_only_defined|intros object].
  cbv zeta. apply logs_only_bind; [apply logs_only_console_log|intros _].
  apply logs_only_bind;
    [apply logs_only_mapM, logs_only_member_stats|intros memberStats].
  apply logs_only_bind; [apply logs_only_leaderboard_table|intros _].
  apply logs_only_for, logs_only_day_table.
Qed.

(** The three ways a run of [main] ends. *)
Lemma main_outcomes (env : Env) :
  let url := leaderboard_url env in
  (network env url = Rejected
   ∧ main env initial_world
     = (Throw FetchError, after_request env [fetching_line] []))
  ∨ (∃ r, network env url = Fulfilled r ∧ ok r = false
          ∧ main env initial_world
            = (Exit 1, after_request env [fetching_line] [fetch_failure r]))
  ∨ (∃ r c w, network env url = Fulfilled r ∧ ok r = true
              ∧ main env initial_world = (c, w)
              ∧ stderr w = [] ∧ requests w = [url]
              ∧ ∀ code, c ≠ Exit code).
Proof.
  intros url. destruct (network env url) as [r|] eqn:Hnet.
  - right. destruct (ok r) eqn:Hok.
    + right. exists r.
      pose proof (logs_only_rendering r
                    (after_request env [fetching_line] [])) as Hlogs.
      unfold main. rewrite (main_after_fetch env r), (main_ok env r) by done.
      match goal with
      | |- context [?m (after_request env [fetching_line] [])] =>
        destruct (m (after_request env [fetching_line] [])) as [c w]
      end.
      exists c, w. cbn [fst snd] in Hlogs. destruct Hlogs as (Hs & Hr & Hx).
      by split_and!.
    + left. exists r. split_and!; [done..|]. by apply main_not_ok.
  - left. split; [done|]. unfold main.
    erewrite bind_normal by apply console_log_run.
    erewrite bind_throw; [done|]. unfold fetch. fold url. by rewrite Hnet.
Qed.

Lemma script_outcomes (env : Env) :
  let url := leaderboard_url env in
  (network env url = Rejected
   ∧ script env
     = (after_request env [fetching_line] [LogError FetchError], 0))
  ∨ (∃ r, network env url = Fulfilled r ∧ ok r = false
          ∧ script env
            = (after_request env [fetching_line] [fetch_failure r], 1))
  ∨ (∃ r, network env url = Fulfilled r ∧ ok r = true
          ∧ (script env).2 = 0
          ∧ requests (script env).1 = [url]
          ∧ (length (stderr (script env).1) ≤ 1)%nat).
Proof.
  intros url. destruct (main_outcomes env) as [[Hnet Hmain]|[(r & Hnet & Hok & Hmain)
    |(r & c & w & Hnet & Hok & Hmain & Herr & Hreq & Hexit)]].
  - left. split; [done|]. by rewrite (script_of_main env _ _ Hmain).
  - right; left. exists r. split_and!; [done..|].
    by rewrite (script_of_main env _ _ Hmain).
  - right; right. exists r. rewrite (script_of_main env _ _ Hmain).
    destruct c as [[]|e|code]; [| |by destruct (Hexit code)];
      simpl; rewrite Herr; split_and!; simpl; try done; lia.
Qed.

Lemma leaderboard_url_unfold (env : Env) :
  leaderboard_url env
  = utf16 "https://adventofcode.com/2025/leaderboard/private/view/"
    ++ LEADERBOARD_ID env ++ utf16 ".json?view_key=" ++ VIEW_KEY env.
Proof. unfold leaderboard_url. reflexivity. Qed.

Lemma script_requests (env : Env) :
  requests (script env).1 = [leaderboard_url env].
Proof.
  destruct (script_outcomes env) as [[_ ->]|[(r & _ & _ & ->)
    |(r & _ & _ & _ & Hreq & _)]]; done.
Qed.

(** X6: Every run of [main] makes exactly one request, to the URL made of the
    leaderboard id and the view key, whatever the network answers and
    whatever the document holds: nothing is retried and nothing else is
    fetched. *)
Theorem one_request_per_run (env : Env) :
  requests (script env).1
  = [utf16 "https://adventofcode.com/2025/leaderboard/private/view/"
     ++ LEADERBOARD_ID env ++ utf16 ".json?view_key=" ++ VIEW_KEY env].
Proof. rewrite <-leaderboard_url_unfold. apply script_requests. Qed.

(** X7: The exit code of a run of [main] is 1 exactly when the response
    arrived with a status that is not a success, and 0 in every other
    case, among them a request that failed outright and any exception;
    the error stream gets at most one item. *)
Theorem exit_code_one_iff_not_ok (env : Env) :
  ((script env).2 = 1 ↔
   ∃ r, network env (leaderboard_url env) = Fulfilled r ∧ ok r = false)
  ∧ ((script env).2 = 0 ∨ (script env).2 = 1)
  ∧ (length (stderr (script env).1) ≤ 1)%nat.
Proof.
  destruct (script_outcomes env) as [[Hnet Hrun]|[(r & Hnet & Hok & Hrun)
    |(r & Hnet & Hok & Hcode & _ & Hlen)]].
  - rewrite Hrun. split_and!; [|by left|simpl; lia].
    split; [done|]. intros (r & Hr & _). congruence.
  - rewrite Hrun. split_and!; [|by right|simpl; lia].
    split; [by exists r|done].
  - rewrite Hcode. split_and!; [|by left|done].
    split; [done|]. intros (r' & Hr' & Hok'). congruence.
Qed.

(** X8: A request that fails outright (the promise of [fetch] rejects) is
    handled like any exception of [main]: the error is printed, only the
    line before the request was logged, and the exit code is 0. *)
Theorem rejected_request_exits_zero (env : Env) :
  network env (leaderboard_url env) = Rejected →
  script env = (after_request env [fetching_line] [LogError FetchError], 0).
Proof.
  intros Hnet.
  destruct (script_outcomes env) as [[_ Hrun]|[(r & Hr & _)|(r & Hr & _)]];
    [done|congruence..].
Qed.

Lemma rejected_request_exits_zero_witness :
  (script (env_from (host_with [] [] None) (utf16 "1", utf16 "k"))).2 = 0.
Proof.
  rewrite (rejected_request_exits_zero
             (env_from (host_with [] [] None) (utf16 "1", utf16 "k")));
    reflexivity.
Defined.

(** X5: When [parseArgs] returns it has printed nothing, and the run is that
    of [main] with the returned id and key: one request, to the URL made
    of them.  When it does not return, no request is made. *)
Theorem program_runs_main_with_parsed_config (host : Host) :
  (∀ config w, parseArgs host initial_world = (Normal config, w) →
     w = initial_world
     ∧ program host = script (env_from host config)
     ∧ requests (program host).1
       = [utf16 "https://adventofcode.com/2025/leaderboard/private/view/"
          ++ config.1 ++ utf16 ".json?view_key=" ++ config.2])
  ∧ ((∀ config w, parseArgs host initial_world ≠ (Normal config, w)) →
     requests (program host).1 = [] ∧ stdout (program host).1 = []
     ∧ (program host).2 = 1).
Proof.
  split.
  - intros config w Hparse.
    destruct (parseArgs_quiet _ _ _ _ Hparse) as (_ & _ & Hw).
    split; [by apply (Hw config)|].
    rewrite (program_of_parseArgs host _ _ Hparse). split; [done|].
    rewrite (script_requests (env_from host config)).
    by rewrite leaderboard_url_unfold.
  - intros Hno. destruct (parseArgs host initial_world) as [c w] eqn:Hparse.
    destruct (parseArgs_quiet _ _ _ _ Hparse) as (Hout & Hreq & _).
    rewrite (program_of_parseArgs host _ _ Hparse).
    destruct c as [config|e|code]; [by destruct (Hno config w)|by split_and!|].
    split_and!; [done..|]. simpl.
    revert Hparse. unfold parseArgs.
    assert (∀ args, parseArgs_rest host args initial_world = (Exit code, w) →
              code = 1) as Hrest.
    { intros args. rewrite parseArgs_rest_run.
      destruct (_ && _); [done|]. cbv zeta. destruct (_ || _); [|done].
      by intros [= <- _]. }
    destruct (drop 2 (argv host) !! 0%nat) as [arg|]; [|apply Hrest].
    destruct (includes arg DOMAIN); [|apply Hrest].
    rewrite parseArgs_url_run. destruct (new_URL host arg); [|done].
    cbv zeta. destruct (_ || _); [|done]. by intros [= <- _].
Qed.

Lemma program_runs_main_with_parsed_config_witness :
  program (host_with [utf16 "12345"; utf16 "abc123"] [] None)
  = script (env_from (host_with [utf16 "12345"; utf16 "abc123"] [] None)
              (utf16 "12345", utf16 "abc123")).
Proof.
  destruct (program_runs_main_with_parsed_config
              (host_with [utf16 "12345"; utf16 "abc123"] [] None))
    as [Hrun _].
  apply (Hrun (utf16 "12345", utf16 "abc123") initial_world).
  vm_compute. reflexivity.
Defined.

(** ** Exceptions in the middle of a run *)

Lemma js_mapM_member_stats_throw (num_days : Z) (l : list Member) (w : World) :
  1 ≤ num_days → (∃ m, m ∈ l ∧ completion_day_level m = None) →
  js_mapM (member_stats num_days) l w = (Throw TypeError, w).
Proof.
  intros Hn. induction l as [|x l IH]; intros (m & Hm & Hcdl).
  { by apply elem_of_nil in Hm. }
  simpl. destruct (completion_day_level x) as [cdl|] eqn:Hx.
  - erewrite bind_normal by (apply member_stats_run; left; by eexists).
    erewrite bind_throw; [done|]. apply IH.
    apply elem_of_cons in Hm as [->|Hm]; [congruence|by exists m].
  - erewrite bind_throw; [done|]. by apply member_stats_throw.
Qed.

(** X9: When the leaderboard has at least one day and some member of the
    document lacks [completion_day_level], the run stops with a
    [TypeError] after the summary line: no table is printed, the error
    is, and the exit code is 0. *)
Theorem missing_completion_day_level_throws (env : Env) (r : Response)
    (data : LeaderboardData) (object : JsObject Member) :
  network env (leaderboard_url env) = Fulfilled r → ok r = true →
  body r = Some data → members data = Some object →
  1 ≤ num_days data →
  (∃ m, m ∈ object.*2 ∧ completion_day_level m = None) →
  script env
  = (after_request env [fetching_line; summary_line data object]
       [LogError TypeError], 0).
Proof.
  intros Hnet Hok Hbody Hmem Hn (m & Hm & Hcdl).
  assert (main env initial_world
          = (Throw TypeError,
             after_request env [fetching_line; summary_line data object] []))
    as Hmain.
  { unfold main, summary_line.
    rewrite (main_after_fetch env r), (main_ok env r) by done.
    erewrite bind_normal by (unfold response_json; by rewrite Hbody).
    erewrite bind_normal by (by rewrite Hmem).
    erewrite bind_normal by apply console_log_run.
    erewrite bind_throw; [done|].
    apply js_mapM_member_stats_throw; [done|]. exists m. split; [|done].
    by rewrite Array_sort_Permutation, Object_values_all. }
  by rewrite (script_of_main env _ _ Hmain).
Qed.

Lemma missing_completion_day_level_throws_witness :
  (script (env_of (snapshot_of [(utf16 "3", bare_member)] 1))).2 = 0
  ∧ length (stdout (script (env_of (snapshot_of [(utf16 "3", bare_member)] 1))).1)
    = 2%nat.
Proof.
  rewrite (missing_completion_day_level_throws
             (env_of (snapshot_of [(utf16 "3", bare_member)] 1))
             {| ok := true; status := 200; statusText := utf16 "OK";
                body := Some (snapshot_of [(utf16 "3", bare_member)] 1) |}
             (snapshot_of [(utf16 "3", bare_member)] 1)
             [(utf16 "3", bare_member)]);
    try reflexivity.
  - simpl. lia.
  - exists bare_member. split; [|reflexivity]. simpl. left.
Defined.

Lemma js_for_prefix {A} (body : A → Js unit) (f : A → jsstring)
    (l1 l2 : list A) (w : World) :
  (∀ x w, x ∈ l1 → body x w = (Normal tt, logged [f x] w)) →
  js_for (l1 ++ l2) body w = js_for l2 body (logged (f <$> l1) w).
Proof.
  revert w. induction l1 as [|x l1 IH]; intros w Hbody; simpl.
  { by rewrite logged_nil. }
  erewrite bind_normal by (apply Hbody; left).
  rewrite IH, logged_app; [done|]. intros y w' Hy. apply Hbody. by right.
Qed.

Lemma leaderboard_row_throw (num_days : Z) (i : nat) (m : MemberStats)
    (w : World) :
  Stats.stars m < 0 ∨ num_days * 2 < Stats.stars m →
  leaderboard_row num_days (i, m) w = (Throw RangeError, w).
Proof.
  intros Hs. unfold leaderboard_row.
  destruct (decide (Stats.stars m < 0)) as [Hneg|Hpos].
  - erewrite bind_throw; [done|]. by apply js_repeat_throw.
  - erewrite bind_normal by (apply js_repeat_run; lia).
    erewrite bind_throw; [done|]. apply js_repeat_throw. lia.
Qed.

(** X10: A star count below 0 or above twice the number of days makes
    [repeat] throw a [RangeError] in the middle of the overall table: the
    head of the table and the rows of the members ranked before are
    already printed, the row of that member and all that follows are
    not. *)
Theorem star_count_out_of_range_aborts_table (num_days : Z)
    (before_it after_it : list MemberStats) (m : MemberStats) (w : World) :
  (∀ x, x ∈ before_it → 0 ≤ Stats.stars x ≤ num_days * 2) →
  Stats.stars m < 0 ∨ num_days * 2 < Stats.stars m →
  leaderboard_table num_days (before_it ++ m :: after_it) w
  = (Throw RangeError,
     logged (leaderboard_head
             ++ (leaderboard_row_text num_days <$> indexed before_it)) w).
Proof.
  intros Hbefore Hm. unfold leaderboard_table, leaderboard_head.
  do 5 (erewrite bind_normal by apply console_log_run).
  erewrite bind_throw; [done|].
  unfold indexed. rewrite imap_app.
  erewrite (js_for_prefix _ (leaderboard_row_text num_days)).
  2:{ intros [i x] w' Hx. apply leaderboard_row_run. apply Hbefore.
      by eapply indexed_elem. }
  cbn [imap js_for].
  erewrite bind_throw by (by apply leaderboard_row_throw).
  by rewrite !logged_app.
Qed.

Lemma star_count_out_of_range_aborts_table_witness :
  (leaderboard_table 1 ([solved_part1 "a" 1 10] ++ [stats_of 1 overstarred])
     initial_world).1 = Throw RangeError.
Proof.
  rewrite (star_count_out_of_range_aborts_table 1 [solved_part1 "a" 1 10] []
             (stats_of 1 overstarred) initial_world).
  - reflexivity.
  - intros x Hx. apply list_elem_of_singleton in Hx as ->. simpl. lia.
  - right. simpl. lia.
Defined.

(** ** More on the day averages *)

Lemma sumZ_bounds (l : list Z) (lo hi : Z) :
  (∀ x, x ∈ l → lo ≤ x ≤ hi) →
  lo * Z.of_nat (length l) ≤ sumZ l ≤ hi * Z.of_nat (length l).
Proof.
  induction l as [|x l IH]; intros Hl.
  { unfold sumZ; simpl; lia. }
  assert (lo ≤ x ≤ hi) by (apply Hl; left).
  assert (lo * Z.of_nat (length l) ≤ sumZ l ≤ hi * Z.of_nat (length l))
    by (apply IH; intros; apply Hl; by right).
  unfold sumZ in *. cbn [foldr length]. lia.
Qed.

Lemma average_within (offs : list Z) (lo hi r : Z) :
  (∀ x, x ∈ offs → lo ≤ x ≤ hi) →
  average (sumZ offs) (Z.of_nat (length offs)) = Some r → lo ≤ r ≤ hi.
Proof.
  intros Hoffs Havg. pose proof (sumZ_bounds offs lo hi Hoffs) as Hsum.
  destruct (decide (offs = [])) as [->|Hne].
  { by rewrite average_None in Havg. }
  assert (0 < Z.of_nat (length offs)) as Hn by (destruct offs; simpl; [done|lia]).
  rewrite average_Some in Havg by done. injection Havg as <-.
  pose proof (half_up_bounds (sumZ offs) (Z.of_nat (length offs)) Hn) as Hb.
  cbv zeta in Hb. revert Hb Hsum Hn.
  generalize ((2 * sumZ offs + Z.of_nat (length offs))
              / (2 * Z.of_nat (length offs))).
  generalize (sumZ offs) (Z.of_nat (length offs)). intros total n q ???. nia.
Qed.

(** X11: The average of a part on a day lies between the least and the
    greatest offset it is taken over; in particular the average of a
    single offset is that offset. *)
Theorem day_average_within_range (memberStats : list MemberStats)
    (day lo hi : Z) :
  ((∀ x, x ∈ present_offsets part1 memberStats day → lo ≤ x ≤ hi) →
   ∀ r, avgP1 (day_average memberStats day) = Some r → lo ≤ r ≤ hi)
  ∧ ((∀ x, x ∈ present_offsets part2 memberStats day → lo ≤ x ≤ hi) →
     ∀ r, avgP2 (day_average memberStats day) = Some r → lo ≤ r ≤ hi)
  ∧ (present_offsets part1 memberStats day = [lo] →
     avgP1 (day_average memberStats day) = Some lo)
  ∧ (present_offsets part2 memberStats day = [lo] →
     avgP2 (day_average memberStats day) = Some lo).
Proof.
  rewrite day_average_unfold. simpl. split_and!.
  - intros Hoffs r. by apply average_within.
  - intros Hoffs r. by apply average_within.
  - intros ->. unfold sumZ. simpl. rewrite average_Some by lia. f_equal.
    symmetry. apply Z.div_unique with (r := 1); lia.
  - intros ->. unfold sumZ. simpl. rewrite average_Some by lia. f_equal.
    symmetry. apply Z.div_unique with (r := 1); lia.
Qed.

Lemma day_average_within_range_witness :
  ∃ r, avgP1 (day_average [solved_part1 "a" 1 10; solved_part1 "b" 1 21] 1)
       = Some r ∧ 10 ≤ r ≤ 21.
Proof.
  destruct (day_average_within_range
              [solved_part1 "a" 1 10; solved_part1 "b" 1 21] 1 10 21)
    as [Hrange _].
  exists 16. split; [vm_compute; reflexivity|].
  apply Hrange; [|vm_compute; reflexivity]. intros x Hx. vm_compute in Hx.
  apply elem_of_cons in Hx as [->|Hx]; [lia|].
  apply list_elem_of_singleton in Hx as ->. lia.
Defined.

(** X12: The averages of a day do not depend on the order of the members:
    ranking the members differently gives the same average line. *)
Theorem day_average_permutation (ms1 ms2 : list MemberStats) (day : Z) :
  ms1 ≡ₚ ms2 → day_average ms1 day = day_average ms2 day.
Proof.
  intros Hp. rewrite !day_average_unfold.
  assert (∀ part, present_offsets part ms1 day
                  ≡ₚ present_offsets part ms2 day) as Hoffs
    by (intros part; unfold present_offsets; by rewrite Hp).
  by rewrite (sumZ_Permutation _ _ (Hoffs part1)),
    (sumZ_Permutation _ _ (Hoffs part2)),
    (Permutation_length (Hoffs part1)), (Permutation_length (Hoffs part2)).
Qed.

Lemma day_average_permutation_witness :
  day_average [solved_part1 "a" 1 10; solved_part1 "b" 1 21] 1
  = day_average [solved_part1 "b" 1 21; solved_part1 "a" 1 10] 1.
Proof. apply day_average_permutation, Permutation_swap. Defined.

(** ** More on the per-day tables *)

(** X13: Members with the same part-1 offset on a day stand in the table of
    the day in the order of the overall ranking. *)
Theorem day_ties_keep_overall_order (memberStats : list MemberStats)
    (day p : Z) :
  filter (λ c, DayRow.p1 c = p) (day_completions memberStats day)
  = filter (λ c, DayRow.p1 c = p)
      (to_row day <$> filter (λ m, has_part1 day m = true) memberStats).
Proof.
  unfold day_completions. apply Array_sort_stable. intros a b -> ->. lia.
Qed.

(** ** More on formatDuration *)

(** X14: From one day on the seconds are not shown: two durations of a day or
    more within the same minute are rendered alike. *)
Theorem formatDuration_to_the_minute (s s' : Z) :
  86400 ≤ s → 86400 ≤ s' → s / 60 = s' / 60 →
  formatDuration s = formatDuration s'.
Proof.
  intros Hs Hs' Hmin. unfold formatDuration.
  destruct (Z.ltb_spec s 0); [lia|]. destruct (Z.ltb_spec s' 0); [lia|].
  rewrite !Z.rem_mod_nonneg by lia.
  assert (s / 86400 = s' / 86400
          ∧ (s `mod` 86400) / 3600 = (s' `mod` 86400) / 3600
          ∧ (s `mod` 3600) / 60 = (s' `mod` 3600) / 60) as (-> & -> & ->)
    by (Z.to_euclidean_division_equations; lia).
  destruct (Z.ltb_spec 0 (s' / 86400)); [done|].
  Z.to_euclidean_division_equations; lia.
Qed.

Lemma formatDuration_to_the_minute_witness :
  formatDuration 90000 = formatDuration 90059.
Proof. apply formatDuration_to_the_minute; [lia|lia|reflexivity]. Defined.

(** ** The times of a member *)

(** X15: The times of a member have an entry for day [d] exactly when [d] is
    one of the days 1 to [num_days] and [completion_day_level] has a
    property named by the decimal numeral of [d]; the entry holds the
    offsets of that property.  Other properties of the document (later
    days, names that are not such a numeral) are ignored. *)
Theorem times_follow_the_document (num_days : Z) (member : Member)
    (cdl : CompletionDayLevel) (w : World) :
  completion_day_level member = Some cdl →
  ∃ stats,
    member_stats num_days member w = (Normal stats, w)
    ∧ ∀ d, Stats.times stats !! d
           = if decide (1 ≤ d ≤ num_days)
             then (λ dayData,
                     {| part1 := offset (get_star_ts <$> level_1 dayData)
                                   (getPuzzleUnlock d);
                        part2 := offset (get_star_ts <$> level_2 dayData)
                                   (getPuzzleUnlock d) |})
                  <$> get cdl (toString d)
             else None.
Proof.
  intros Hcdl. exists (stats_of num_days member). split.
  - apply member_stats_run. left. by eexists.
  - intros d. unfold stats_of. simpl. rewrite Hcdl. simpl.
    apply times_of_lookup.
Qed.

Lemma times_follow_the_document_witness :
  ∃ stats,
    member_stats 1 epoch_member initial_world = (Normal stats, initial_world)
    ∧ Stats.times stats !! 2 = None.
Proof.
  destruct (times_follow_the_document 1 epoch_member
              [(utf16 "1", {| level_1 := Some {| get_star_ts := 0 |};
                              level_2 := None |})] initial_world)
    as (stats & Hrun & Htimes); [reflexivity|].
  exists stats. split; [exact Hrun|]. rewrite Htimes. reflexivity.
Defined.

(** ** The loop of the per-day tables *)

(** X16: [dayAverages] has an entry for exactly the days 1 to [num_days], and
    the entry of a day is the average of that day. *)
Theorem day_averages_cover_days (memberStats : list MemberStats)
    (num_days d : Z) (avg : DayAverage) :
  day_averages memberStats num_days !! d = Some avg
  ↔ 1 ≤ d ≤ num_days ∧ avg = day_average memberStats d.
Proof.
  rewrite day_averages_lookup. destruct (decide (1 ≤ d ≤ num_days)).
  - split; [by intros [= <-]|by intros [_ ->]].
  - split; [done|by intros [? _]].
Qed.

(** X17: The loop of the per-day tables never throws: it logs, day after day in
    ascending order, the table of each day, and the tables it logs are as
    many as the days on which some member has a part-1 offset. *)
Theorem per_day_tables_of_a_run (memberStats : list MemberStats)
    (num_days : Z) (w : World) :
  let logged_lines :=
    mjoin (day_table_lines memberStats <$> days_of num_days) in
  js_for (days_of num_days)
         (day_table memberStats (day_averages memberStats num_days)) w
  = (Normal tt, logged logged_lines w)
  ∧ length (filter (λ l, l = day_table_top) logged_lines)
    = length (filter (λ day, Exists (λ m, has_part1 day m = true) memberStats)
                (days_of num_days)).
Proof.
  intros logged_lines. split.
  - apply js_for_run. intros day w' Hday. apply day_table_run.
    by apply days_of_elem.
  - subst logged_lines. induction (days_of num_days) as [|day days IH];
      [done|]. rewrite fmap_cons.
    change (mjoin (?a :: ?b)) with (a ++ mjoin b).
    rewrite filter_app, length_app, IH, filter_cons. clear IH.
    assert (filter (λ m, has_part1 day m = true) memberStats = []
            ↔ ¬ Exists (λ m, has_part1 day m = true) memberStats) as Hnone.
    { rewrite Exists_exists. split.
      - intros Hnil (m & Hm & Hp).
        assert (m ∈ filter (λ m, has_part1 day m = true) memberStats) as Hin
          by (by apply list_elem_of_filter).
        rewrite Hnil in Hin. by apply elem_of_nil in Hin.
      - intros Hno. destruct (filter _ memberStats) as [|m l] eqn:Hf; [done|].
        assert (m ∈ filter (λ m, has_part1 day m = true) memberStats) as Hin
          by (rewrite Hf; left).
        apply list_elem_of_filter in Hin as [Hp Hm]. destruct Hno. eauto. }
    unfold day_table_lines.
    assert (length (day_completions memberStats day)
            = length (filter (λ m, has_part1 day m = true) memberStats))
      as Hlen by (unfold day_completions;
                  by rewrite Array_sort_length, length_fmap).
    destruct (decide (Exists _ memberStats)) as [Hsome|Hno].
    + rewrite decide_False.
      2:{ rewrite Hlen. intros Hz. apply Hnone; [|done].
          by apply nil_length_inv. }
      rewrite !filter_app, day_header_tops, day_rows_tops, day_footer_tops.
      rewrite filter_cons, decide_False by (vm_compute; discriminate).
      done.
    + rewrite decide_True; [done|]. rewrite Hlen.
      apply Hnone in Hno. by rewrite Hno.
Qed.

(** ** Cells and widths *)

Lemma utf16_filled_star : utf16 "★" = [FILLED_STAR].
Proof. vm_compute. reflexivity. Qed.

Lemma utf16_hollow_star : utf16 "☆" = [HOLLOW_STAR].
Proof. vm_compute. reflexivity. Qed.

Lemma mjoin_replicate_singleton {A} (k : nat) (x : A) :
  mjoin (replicate k [x]) = replicate k x.
Proof. induction k as [|k IH]; simpl; [done|by f_equal]. Qed.

(** X18: The star column of a member with a star count from 0 to twice the
    number of days: one filled star per star and hollow stars up to twice
    the number of days, cut after the 14th glyph.  So the column is 14
    glyphs wide only from 7 days on, and from 14 stars on it shows 14
    filled stars whatever the count. *)
Theorem star_column (num_days : Z) (i : nat) (m : MemberStats) (w : World) :
  0 ≤ Stats.stars m ≤ num_days * 2 →
  let filled := Z.to_nat (Z.min (Stats.stars m) 14) in
  let shown := Z.to_nat (Z.min (num_days * 2) 14) in
  leaderboard_row num_days (i, m) w
  = (Normal tt,
     logged [ utf16 "║ " ++ padStart 4 (toString (Z.of_nat i + 1))
              ++ utf16 " ║ " ++ padEnd 24 (slice0 24 (Stats.name m))
              ++ utf16 " ║ " ++ padStart 7 (toString (Stats.score m))
              ++ utf16 " ║ "
              ++ (replicate filled FILLED_STAR
                  ++ replicate (shown - filled) HOLLOW_STAR)
              ++ utf16 " ║" ] w).
Proof.
  intros Hs filled shown. rewrite leaderboard_row_run by done.
  unfold leaderboard_row_text. do 9 f_equal.
  rewrite utf16_filled_star, utf16_hollow_star. unfold jsstring.
  rewrite !mjoin_replicate_singleton.
  unfold slice0. rewrite take_app, !take_replicate, length_replicate.
  subst filled shown.
  replace (14 `min` Z.to_nat (Stats.stars m))%nat
    with (Z.to_nat (Stats.stars m `min` 14)) by lia.
  replace ((14 - Z.to_nat (Stats.stars m))
           `min` Z.to_nat (num_days * 2 - Stats.stars m))%nat
    with (Z.to_nat ((num_days * 2) `min` 14)
          - Z.to_nat (Stats.stars m `min` 14))%nat by lia.
  reflexivity.
Qed.

Lemma star_column_witness :
  ∃ cells,
    leaderboard_row 12 (0%nat, stats_of 12 overstarred) initial_world
    = (Normal tt,
       logged [cells ++ (replicate 5 FILLED_STAR ++ replicate 9 HOLLOW_STAR)
               ++ utf16 " ║"] initial_world).
Proof.
  eexists. rewrite (star_column 12 0 (stats_of 12 overstarred) initial_world).
  - cbn [Z.min Z.to_nat]. rewrite !app_assoc. reflexivity.
  - simpl. lia.
Defined.

Lemma padStart_length (n : nat) (s : jsstring) :
  length (padStart n s) = (n `max` length s)%nat.
Proof. unfold padStart. rewrite length_app, length_replicate. lia. Qed.

Lemma name_cell_length (s : jsstring) :
  length (padEnd 24 (slice0 24 s)) = 24%nat.
Proof.
  unfold padEnd, slice0. rewrite length_app, length_replicate, length_take. lia.
Qed.

Lemma toString_length_rank (z : Z) :
  0 ≤ z < 10000 → (1 ≤ length (toString z) ≤ 4)%nat.
Proof.
  intros Hz.
  assert (forallb (λ z, (1 <=? length (toString z))%nat
                        && (length (toString z) <=? 4)%nat)
            (seqZ 0 10000) = true) as Hall by (vm_compute; reflexivity).
  rewrite forallb_forall in Hall.
  specialize (Hall z). rewrite andb_true_iff, !Nat.leb_le in Hall.
  apply Hall, list_elem_of_In, elem_of_seqZ. lia.
Qed.

Lemma toString_length_unit (z : Z) :
  0 ≤ z < 100 → (length (toString z) ≤ 2)%nat.
Proof.
  intros Hz.
  assert (forallb (λ z, (length (toString z) <=? 2)%nat) (seqZ 0 100) = true)
    as Hall by (vm_compute; reflexivity).
  rewrite forallb_forall in Hall.
  apply Nat.leb_le, Hall, list_elem_of_In, elem_of_seqZ. lia.
Qed.

Lemma literal_lengths :
  length (utf16 "N/A") = 3%nat ∧ length (utf16 "-") = 1%nat
  ∧ length (utf16 "d ") = 2%nat ∧ length (utf16 "h ") = 2%nat
  ∧ length (utf16 "m ") = 2%nat ∧ length (utf16 "m") = 1%nat
  ∧ length (utf16 "s") = 1%nat
  ∧ length (utf16 "│ ") = 2%nat ∧ length (utf16 " │ ") = 3%nat
  ∧ length (utf16 " │") = 2%nat ∧ length (utf16 "│  DAY ") = 7%nat
  ∧ length (utf16 "│") = 1%nat
  ∧ length (utf16 "│ AVERAGE                         │ ") = 36%nat.
Proof. vm_compute. by repeat split. Qed.

(** Durations below 100 days fit the 11 units of a duration cell. *)
Lemma formatDuration_length (s : Z) :
  s < 8640000 → (length (formatDuration s) ≤ 11)%nat.
Proof.
  intros Hs.
  destruct literal_lengths as (Hna & _ & Hd & Hh & Hm & Hm' & Hs' & _).
  unfold formatDuration. destruct (Z.ltb_spec s 0); [rewrite Hna; lia|].
  destruct (duration_units s ltac:(done)) as (Hsum & Hd0 & Hh0 & Hm0 & Hs0).
  assert (s / 86400 < 100) by (Z.to_euclidean_division_equations; lia).
  pose proof (toString_length_unit (s / 86400) ltac:(lia)).
  pose proof (toString_length_unit (Z.rem s 86400 / 3600) ltac:(lia)).
  pose proof (toString_length_unit (Z.rem s 3600 / 60) ltac:(lia)).
  pose proof (toString_length_unit (Z.rem s 60) ltac:(lia)).
  repeat match goal with
  | |- context [0 <? ?x] => destruct (Z.ltb_spec 0 x)
  end; rewrite !length_app, ?Hd, ?Hh, ?Hm, ?Hm', ?Hs'; lia.
Qed.

Lemma duration_cell_length (x : option Z) :
  (∀ d, x = Some d → d < 8640000) → length (dash_or_duration x) = 11%nat.
Proof.
  intros Hx. destruct literal_lengths as (_ & Hdash & _).
  unfold dash_or_duration. destruct x as [d|]; rewrite padStart_length.
  - pose proof (formatDuration_length d (Hx d eq_refl)). lia.
  - rewrite Hdash. lia.
Qed.

Lemma day_row_length (i : nat) (c : DayCompletion) :
  Z.of_nat i < 9999 → DayRow.p1 c < 8640000 →
  (∀ p, DayRow.p2 c = Some p → p < 8640000) →
  length (day_row (i, c)) = 63%nat.
Proof.
  intros Hi Hp1 Hp2.
  destruct literal_lengths as (_ & _ & _ & _ & _ & _ & _ & Hl & Hm & Hr & _).
  unfold day_row. rewrite !length_app, Hl, Hm, Hr, name_cell_length.
  rewrite !padStart_length, (duration_cell_length (DayRow.p2 c)) by done.
  pose proof (formatDuration_length (DayRow.p1 c) Hp1).
  pose proof (toString_length_rank (Z.of_nat i + 1) ltac:(lia)). lia.
Qed.

Lemma padEnd_length (n : nat) (s : jsstring) :
  length (padEnd n s) = (n `max` length s)%nat.
Proof. unfold padEnd. rewrite length_app, length_replicate. lia. Qed.

Lemma average_at_most (offs : list Z) (hi r : Z) :
  (∀ x, x ∈ offs → x ≤ hi) →
  average (sumZ offs) (Z.of_nat (length offs)) = Some r → r ≤ hi.
Proof.
  intros Hoffs Havg.
  assert (sumZ offs ≤ hi * Z.of_nat (length offs)) as Hsum.
  { clear Havg. induction offs as [|x offs IH]; [unfold sumZ; simpl; lia|].
    assert (x ≤ hi) by (apply Hoffs; left).
    assert (sumZ offs ≤ hi * Z.of_nat (length offs))
      by (apply IH; intros; apply Hoffs; by right).
    unfold sumZ in *. cbn [foldr length]. lia. }
  destruct (decide (offs = [])) as [->|Hne].
  { by rewrite average_None in Havg. }
  assert (0 < Z.of_nat (length offs)) as Hn by (destruct offs; simpl; [done|lia]).
  rewrite average_Some in Havg by done. injection Havg as <-.
  pose proof (half_up_bounds (sumZ offs) (Z.of_nat (length offs)) Hn) as Hb.
  cbv zeta in Hb. revert Hb Hsum Hn.
  generalize ((2 * sumZ offs + Z.of_nat (length offs))
              / (2 * Z.of_nat (length offs))).
  generalize (sumZ offs) (Z.of_nat (length offs)). intros total n q ???. nia.
Qed.

Lemma day_completions_offsets (memberStats : list MemberStats) (day : Z)
    (c : DayCompletion) :
  c ∈ day_completions memberStats day →
  DayRow.p1 c ∈ present_offsets part1 memberStats day
  ∧ ∀ p, DayRow.p2 c = Some p → p ∈ present_offsets part2 memberStats day.
Proof.
  unfold day_completions. rewrite Array_sort_Permutation.
  intros Hc. apply list_elem_of_fmap in Hc as (m & -> & Hm).
  apply list_elem_of_filter in Hm as [Hp Hm].
  unfold has_part1 in Hp. apply bool_decide_eq_true in Hp as [p1 Hp1].
  unfold to_row, present_offsets; simpl. rewrite Hp1. simpl. split.
  - apply list_elem_of_omap. by exists m.
  - intros p Hp2. apply list_elem_of_omap. by exists m.
Qed.

Lemma border_lengths :
  length day_table_top = 63%nat ∧ length day_table_rule = 63%nat
  ∧ length (utf16 "├──────┬──────────────────────────┬─────────────┬─────────────┤")
    = 63%nat
  ∧ length (utf16 "│ Rank │ Name                     │   Part 1    │   Part 2    │")
    = 63%nat
  ∧ length (utf16 "├──────┼──────────────────────────┼─────────────┼─────────────┤")
    = 63%nat
  ∧ length (utf16 "└─────────────────────────────────┴─────────────┴─────────────┘")
    = 63%nat.
Proof. vm_compute. by repeat split. Qed.

Lemma day_header_shape (day : Z) :
  day_header day
  = [] :: day_table_top
    :: (utf16 "│  DAY " ++ padEnd 54 (toString day) ++ utf16 "│")
    :: [ utf16 "├──────┬──────────────────────────┬─────────────┬─────────────┤";
         utf16 "│ Rank │ Name                     │   Part 1    │   Part 2    │";
         utf16 "├──────┼──────────────────────────┼─────────────┼─────────────┤" ].
Proof. unfold day_header, day_table_top. reflexivity. Qed.

(** X19: The table of a day is aligned, except for its title: with fewer than
    10000 members, a day number below 10000 and offsets below 100 days,
    every row, the average line and the borders are 63 code units wide,
    and the [DAY] line is 62 wide. *)
Theorem per_day_table_alignment (memberStats : list MemberStats) (day : Z) :
  Z.of_nat (length memberStats) < 10000 → 0 ≤ day < 10000 →
  (∀ x, x ∈ present_offsets part1 memberStats day → x < 8640000) →
  (∀ x, x ∈ present_offsets part2 memberStats day → x < 8640000) →
  day_table_lines memberStats day = []
  ∨ ∃ title rest,
      day_table_lines memberStats day = [] :: day_table_top :: title :: rest
      ∧ length day_table_top = 63%nat
      ∧ length title = 62%nat
      ∧ Forall (λ line, length line = 63%nat) rest.
Proof.
  intros Hms Hday Hp1 Hp2. unfold day_table_lines.
  destruct (decide _) as [|Hrows]; [by left|]. right.
  destruct border_lengths as (Htop & Hrule & Hb1 & Hb2 & Hb3 & Hb4).
  destruct literal_lengths
    as (_ & _ & _ & _ & _ & _ & _ & _ & Hm & Hr & Hday' & Hbar & Havg).
  rewrite day_header_shape. cbn [app].
  eexists _, _. split; [reflexivity|]. split; [exact Htop|]. split.
  { rewrite !length_app, Hday', Hbar, padEnd_length.
    pose proof (toString_length_rank day Hday). lia. }
  do 3 (apply Forall_cons; split; [assumption|]).
  apply Forall_app. split; [|apply Forall_cons; split; [exact Hrule|]].
  - apply Forall_forall. intros line Hline.
    apply list_elem_of_fmap in Hline as ([i c] & -> & Hic).
    assert (i < length (day_completions memberStats day))%nat as Hi.
    { unfold indexed in Hic. apply list_elem_of_lookup in Hic as [j Hj].
      rewrite list_lookup_imap in Hj.
      destruct (day_completions memberStats day !! j) as [c'|] eqn:Hc';
        simplify_eq/=. by eapply lookup_lt_Some. }
    assert (length (day_completions memberStats day) ≤ length memberStats)%nat
      as Hle.
    { unfold day_completions. rewrite Array_sort_length, length_fmap.
      apply length_filter. }
    destruct (day_completions_offsets memberStats day c) as [H1 H2];
      [by eapply indexed_elem|].
    apply day_row_length; [lia|by apply Hp1|]. intros p Hp. by apply Hp2, H2.
  - unfold day_footer.
    apply Forall_cons; split; [|apply Forall_cons; split; [exact Hb4|constructor]].
    rewrite !length_app, Havg, Hm, Hr.
    rewrite !duration_cell_length; [lia| |].
    + intros d Hd. rewrite day_average_unfold in Hd. simpl in Hd.
      pose proof (average_at_most _ 8639999 d
                    (λ x Hx, proj1 (Z.lt_le_pred _ _) (Hp2 x Hx)) Hd). lia.
    + intros d Hd. rewrite day_average_unfold in Hd. simpl in Hd.
      pose proof (average_at_most _ 8639999 d
                    (λ x Hx, proj1 (Z.lt_le_pred _ _) (Hp1 x Hx)) Hd). lia.
Qed.

Lemma per_day_table_alignment_witness :
  ∃ title rest,
    day_table_lines [solved_part1 "a" 1 10; solved_part1 "b" 1 5] 1
    = [] :: day_table_top :: title :: rest
    ∧ length title = 62%nat
    ∧ Forall (λ line, length line = 63%nat) rest.
Proof.
  destruct (per_day_table_alignment
              [solved_part1 "a" 1 10; solved_part1 "b" 1 5] 1)
    as [Hnone|(title & rest & Hlines & _ & Htitle & Hrest)].
  - simpl. lia.
  - lia.
  - intros x Hx. vm_compute in Hx.
    apply elem_of_cons in Hx as [->|Hx]; [lia|].
    apply list_elem_of_singleton in Hx as ->. lia.
  - intros x Hx. vm_compute in Hx. by apply elem_of_nil in Hx.
  - vm_compute in Hnone. discriminate.
  - by exists title, rest.
Defined.
